(** * Cartoon Avatar Creator: the client-side state machine

    A shallow embedding of [src/types.ts], [src/services/geminiService.ts]
    and the state logic of [src/App.tsx] (handlers, effects, the gating of
    the buttons), followed by the properties the specification states about
    them.

    Conventions of the embedding:
    - [string | null] is [option string]; JavaScript truthiness of such a
      value ([!x], [x || y], [x && y]) is [truthy];
    - [setState(prev => ...)] is a function from states to states; a value
      read from the handler's closure ([state.x]) is an explicit argument
      named [state], kept apart from the updater's [prev];
    - [Date.now()] is an integer number of milliseconds ([Z]);
    - [number] values that hold fractions ([progressPercent]) are exact
      rationals ([Q]): the properties proved about them are order properties
      ([<=], clamping), which IEEE rounding preserves;
    - [Math.random()] is a double in [0, 1), given by its significand and
      its scale, and its product with a length is rounded the way IEEE 754
      rounds it, since the index picked is the floor of that product;
    - the remote model, the FileReader and localStorage are collaborators
      whose answers arrive as arguments or events. *)

From Stdlib Require Import ZArith QArith Qminmax Qround List String Ascii Bool Lia DecimalString.
From Stdlib Require Import DecimalZ Sorted.
Import ListNotations.

Open Scope string_scope.

(* ===================================================================== *)
(** ** JavaScript values                                                  *)
(* ===================================================================== *)

(** Truthiness of a [string | null | undefined]: [null], [undefined] and the
    empty string are falsy. *)
Definition truthy (v : option string) : bool :=
  match v with
  | Some s => negb (s =? "")
  | None => false
  end.

(** [a || b] for an optional string [a] and a string [b]. *)
Definition or_else (v : option string) (fallback : string) : string :=
  match v with
  | Some s => if s =? "" then fallback else s
  | None => fallback
  end.

(** A value interpolated in a template literal: [`${undefined}`] is the
    text [undefined]. *)
Definition interpolate (v : option string) : string :=
  match v with
  | Some s => s
  | None => "undefined"
  end.

(** [s.startsWith(p)]. *)
Definition startsWith (s p : string) : bool := String.prefix p s.

(** [s.split(c)] for a one-character separator: never empty, the pieces
    between the separators in order. *)
Fixpoint split (c : ascii) (s : string) : list string :=
  match s with
  | EmptyString => [EmptyString]
  | String a rest =>
      if Ascii.eqb a c then EmptyString :: split c rest
      else match split c rest with
           | piece :: pieces => String a piece :: pieces
           | [] => [String a EmptyString]
           end
  end.

(** [n.toString()] for an integer. *)
Definition toString (n : Z) : string := NilZero.string_of_int (Z.to_int n).

(** A thrown value, read only through [err.message]. *)
Record JsError := { message : option string }.

Definition Error (msg : string) : JsError := {| message := Some msg |}.

(** How a promise settles. *)
Inductive Settled (A : Type) :=
| Fulfilled (value : A)
| Rejected (err : JsError).
Arguments Fulfilled {A} value.
Arguments Rejected {A} err.

(* ===================================================================== *)
(** ** types.ts                                                           *)
(* ===================================================================== *)

Inductive AvatarStyle :=
| PIXAR | VECTOR | ANIME | SKETCH | COMIC | CYBERPUNK | GOTHIC | CLAY.

(** The string each member of the enum stands for at run time. *)
Definition AvatarStyle_value (s : AvatarStyle) : string :=
  match s with
  | PIXAR => "Pixar 风格"
  | VECTOR => "2D 矢量矢量风"
  | ANIME => "二次元动漫"
  | SKETCH => "手绘素描"
  | COMIC => "美漫风格"
  | CYBERPUNK => "赛博朋克风"
  | GOTHIC => "哥特幻想风"
  | CLAY => "粘土定格动画"
  end.

(** [Object.values(AvatarStyle)], in declaration order. *)
Definition AvatarStyle_values : list AvatarStyle :=
  [PIXAR; VECTOR; ANIME; SKETCH; COMIC; CYBERPUNK; GOTHIC; CLAY].

(** [a !== b] on two styles compares their strings. *)
Definition style_neq (a b : AvatarStyle) : bool :=
  negb (AvatarStyle_value a =? AvatarStyle_value b).

Module HistoryItem.
Record t := mk {
  id : string;
  originalImage : string;
  generatedAvatar : string;
  style : AvatarStyle;
  timestamp : Z
}.
End HistoryItem.

(** [AppState] together with the three fields [ExtendedAppState] adds in
    App.tsx. *)
Record ExtendedAppState := {
  originalImage : option string;
  generatedAvatar : option string;
  isGenerating : bool;
  style : AvatarStyle;
  error : option string;
  history : list HistoryItem.t;
  isDragging : bool;
  progressStep : Z;
  progressPercent : Q
}.

(* ===================================================================== *)
(** ** services/geminiService.ts                                          *)
(* ===================================================================== *)

Module GeminiService.

(** The parts of the SDK's response [generateAvatar] reads. *)
Record InlineData := { data : option string; mimeType : option string }.
Record Part := { inlineData : option InlineData; text : option string }.
Record Content := { parts : option (list Part) }.
Record Candidate := { content : option Content }.
Record GenerateContentResponse := { candidates : option (list Candidate) }.

(** The argument of [ai.models.generateContent]. *)
Record GenerateContentRequest := {
  model : string;
  request_data : option string;
  request_mimeType : option string;
  request_text : string;
  request_systemInstruction : string
}.

(** [response.candidates && response.candidates[0]?.content?.parts]: the
    parts the loop runs over, if that expression is truthy. *)
Definition first_candidate_parts (response : GenerateContentResponse)
  : option (list Part) :=
  match candidates response with
  | Some (c :: _) =>
      match content c with
      | Some ct => parts ct
      | None => None
      end
  | _ => None
  end.

(** The [for] loop with its [break]: the first part that has
    [inlineData] sets [imageUrl]; with none it stays empty. *)
Fixpoint scan_parts (ps : list Part) : string :=
  match ps with
  | [] => ""
  | p :: rest =>
      match inlineData p with
      | Some d => "data:image/png;base64," ++ interpolate (data d)
      | None => scan_parts rest
      end
  end.

Definition imageUrl_of (response : GenerateContentResponse) : string :=
  match first_candidate_parts response with
  | Some ps => scan_parts ps
  | None => ""
  end.

(** [xs[1]] and friends on the result of [split]. *)
Definition item (xs : list string) (i : nat) : option string := nth_error xs i.

Section GenerateAvatar.
(** The prompt texts are configuration; the remote call is opaque. *)
Variable stylePrompts : AvatarStyle -> string.
Variable systemInstruction : string.
Variable promptSuffix : string.
Variable generateContent :
  GenerateContentRequest -> Settled GenerateContentResponse.

Definition request_for (base64Image : string) (style : AvatarStyle)
  : GenerateContentRequest :=
  let base64Data := item (split "," base64Image) 1 in
  let mimeType :=
    match item (split ";" base64Image) 0 with
    | Some head => item (split ":" head) 1
    | None => None
    end in
  {| model := "gemini-2.5-flash-image";
     request_data := base64Data;
     request_mimeType := mimeType;
     request_text := stylePrompts style ++ promptSuffix;
     request_systemInstruction := systemInstruction |}.

(** [generateAvatar]: the promise it returns, as the way it settles.
    [apiKey] is [process.env.API_KEY]. *)
Definition generateAvatar (apiKey : option string)
    (base64Image : string) (style : AvatarStyle) : Settled string :=
  if negb (truthy apiKey) then
    Rejected (Error "API Key is missing. Please ensure process.env.API_KEY is configured.")
  else
    let attempt : Settled string :=
      match generateContent (request_for base64Image style) with
      | Fulfilled response =>
          let imageUrl := imageUrl_of response in
          if imageUrl =? "" then
            Rejected (Error "The model did not return an image part in the response.")
          else Fulfilled imageUrl
      | Rejected err => Rejected err
      end in
    match attempt with
    | Fulfilled url => Fulfilled url
    | Rejected error =>
        Rejected (Error (or_else (message error)
                           "Failed to generate avatar. Please try again."))
    end.
End GenerateAvatar.

End GeminiService.

(* ===================================================================== *)
(** ** App.tsx: constants and the component's initial state               *)
(* ===================================================================== *)

Definition PROGRESS_MESSAGES : list string :=
  [ "正在识别面部特征...";
    "分析五官比例...";
    "勾勒艺术轮廓...";
    "匹配专属风格色彩...";
    "精细还原服饰细节...";
    "正在进行光影渲染...";
    "即将完成，正在收尾..." ].

(** The cap written in [handleGenerate] ([.slice(0, 20)]). *)
Definition HISTORY_CAP : nat := 20.

(** The argument of [useState]. *)
Definition initialState : ExtendedAppState :=
  {| originalImage := None;
     generatedAvatar := None;
     isGenerating := false;
     style := PIXAR;
     error := None;
     history := [];
     isDragging := false;
     progressStep := 0;
     progressPercent := 0 |}.

(** The updaters below spell out [{ ...prev, field: value }]. *)
Definition Updater := ExtendedAppState -> ExtendedAppState.

Definition with_error (e : option string) : Updater := fun prev =>
  {| originalImage := originalImage prev;
     generatedAvatar := generatedAvatar prev;
     isGenerating := isGenerating prev;
     style := style prev;
     error := e;
     history := history prev;
     isDragging := isDragging prev;
     progressStep := progressStep prev;
     progressPercent := progressPercent prev |}.

Definition with_isDragging (b : bool) : Updater := fun prev =>
  {| originalImage := originalImage prev;
     generatedAvatar := generatedAvatar prev;
     isGenerating := isGenerating prev;
     style := style prev;
     error := error prev;
     history := history prev;
     isDragging := b;
     progressStep := progressStep prev;
     progressPercent := progressPercent prev |}.

Definition with_style (s : AvatarStyle) : Updater := fun prev =>
  {| originalImage := originalImage prev;
     generatedAvatar := generatedAvatar prev;
     isGenerating := isGenerating prev;
     style := s;
     error := error prev;
     history := history prev;
     isDragging := isDragging prev;
     progressStep := progressStep prev;
     progressPercent := progressPercent prev |}.

Definition with_history (h : list HistoryItem.t) : Updater := fun prev =>
  {| originalImage := originalImage prev;
     generatedAvatar := generatedAvatar prev;
     isGenerating := isGenerating prev;
     style := style prev;
     error := error prev;
     history := h;
     isDragging := isDragging prev;
     progressStep := progressStep prev;
     progressPercent := progressPercent prev |}.

Definition with_progress (percent : Q) (step : Z) : Updater := fun prev =>
  {| originalImage := originalImage prev;
     generatedAvatar := generatedAvatar prev;
     isGenerating := isGenerating prev;
     style := style prev;
     error := error prev;
     history := history prev;
     isDragging := isDragging prev;
     progressStep := step;
     progressPercent := percent |}.

(* ===================================================================== *)
(** ** App.tsx: the progress effect                                       *)
(* ===================================================================== *)

Definition expectedDuration : Z := 15000.

(** [Math.min((elapsed / expectedDuration) * 100, 98)]. *)
Definition rawPercent (elapsed : Z) : Q :=
  Qmin ((inject_Z elapsed / inject_Z expectedDuration) * 100) 98.

(** [Math.min(Math.floor((rawPercent / 100) * PROGRESS_MESSAGES.length),
    PROGRESS_MESSAGES.length - 1)]. *)
Definition stepIndex (percent : Q) : Z :=
  let n := Z.of_nat (List.length PROGRESS_MESSAGES) in
  Z.min (Qfloor ((percent / 100) * inject_Z n)) (n - 1).

(** The interval's callback, run at time [now] for an interval started at
    [startTime]. *)
Definition tick (startTime now : Z) : Updater :=
  let elapsed := (now - startTime)%Z in
  with_progress (rawPercent elapsed) (stepIndex (rawPercent elapsed)).

(** The [else] branch of the effect: what it sets once [isGenerating] is
    false. *)
Definition resetProgress : Updater := with_progress 0 0.

(* ===================================================================== *)
(** ** App.tsx: image ingestion                                           *)
(* ===================================================================== *)

(** A [File]: its declared media type, and what a FileReader would hand
    back for it as [reader.result] ([null] when the read fails). *)
Record File := { type : string; dataURL : option string }.

Definition invalidFileMessage : string := "请上传有效的图片文件。".

(** [processFile]: the updater it applies at once, and the file whose read
    it starts, if any. *)
Definition processFile (file : File) : Updater * option File :=
  if negb (startsWith (type file) "image/") then
    (with_error (Some invalidFileMessage), None)
  else
    (fun prev => prev, Some file).

(** [reader.onloadend]. *)
Definition onloadend (result : option string) : Updater := fun prev =>
  {| originalImage := result;
     generatedAvatar := None;
     isGenerating := isGenerating prev;
     style := style prev;
     error := None;
     history := history prev;
     isDragging := isDragging prev;
     progressStep := progressStep prev;
     progressPercent := progressPercent prev |}.

(** [handleFileUpload], given [e.target.files?.[0]]. *)
Definition handleFileUpload (file : option File) : Updater * option File :=
  match file with
  | Some f => processFile f
  | None => (fun prev => prev, None)
  end.

Definition handleDragOver : Updater := with_isDragging true.
Definition handleDragLeave : Updater := with_isDragging false.

(** [handleDrop], given [e.dataTransfer.files?.[0]]: the drag flag is
    lowered first, then the file is processed. *)
Definition handleDrop (file : option File) : Updater * option File :=
  match file with
  | Some f =>
      let (u, read) := processFile f in
      (fun prev => u (with_isDragging false prev), read)
  | None => (with_isDragging false, None)
  end.

(* ===================================================================== *)
(** ** App.tsx: style selection                                           *)
(* ===================================================================== *)

(** [styles.filter(s => s !== state.style)]. *)
Definition availableStyles (current : AvatarStyle) : list AvatarStyle :=
  filter (fun s => style_neq s current) AvatarStyle_values.

(** A double in [0, 1), as [Math.random()] returns them: the number
    [significand / 2 ^ scale] with [0 <= significand < 2 ^ 53] and
    [53 <= scale <= 1074]. Every double of that range has this form, and
    every number of this form is such a double. *)
Record Unit01 := { significand : Z; scale : Z }.



(** [n / 2 ^ j] rounded to the nearest whole number, a tie going to the
    even one. *)
Definition roundToEven (n j : Z) : Z :=
  let q := (n / 2 ^ j)%Z in
  match (2 * (n mod 2 ^ j) ?= 2 ^ j)%Z with
  | Lt => q
  | Gt => (q + 1)%Z
  | Eq => if Z.even q then q else (q + 1)%Z
  end.

(** The double [r * len] for [r = m / 2 ^ k] and a whole number [len],
    counted in units of [2 ^ -k]: the exact product [m * len] when it
    fits the 53 bits of a significand, and otherwise the nearest number
    that does, a tie going to the even significand (IEEE 754
    multiplication, rounding to nearest). *)
Definition timesRounded (m len : Z) : Z :=
  let n := (m * len)%Z in
  let j := Z.max 0 (Z.log2 n - 52) in
  (roundToEven n j * 2 ^ j)%Z.

(** [xs[Math.floor(r * xs.length)]], with [r] the value of
    [Math.random()]; [None] is [undefined]. *)
Definition pick {A : Type} (xs : list A) (r : Unit01) : option A :=
  let i := (timesRounded (significand r) (Z.of_nat (List.length xs))
            / 2 ^ scale r)%Z in
  if (i <? 0)%Z then None else nth_error xs (Z.to_nat i).

Definition randomStyle (current : AvatarStyle) (r : Unit01) : option AvatarStyle :=
  pick (availableStyles current) r.

(** [handleRandomStyle]: [state] is the rendered state the handler closes
    over, [r] the value [Math.random()] returns. For a double in [0, 1)
    [randomStyle] is never [undefined] ([randomStyle_defined]); for a
    pair that is no such double the model leaves the style alone. *)
Definition handleRandomStyle (state : ExtendedAppState) (r : Unit01) : Updater :=
  if isGenerating state then fun prev => prev
  else match randomStyle (style state) r with
       | Some s => with_style s
       | None => fun prev => prev
       end.

(** The [onClick] of a style button. *)
Definition selectStyle (s : AvatarStyle) : Updater := with_style s.

(* ===================================================================== *)
(** ** App.tsx: generation                                                *)
(* ===================================================================== *)

(** The call [generateAvatar(state.originalImage, state.style)]. Both
    arguments are read from the closure; the code after the [await] reads
    the same two values again, so the call stands for the closure there. *)
Record GenerateCall := { call_image : string; call_style : AvatarStyle }.

(** The updater applied before the [await]. *)
Definition beginGenerating : Updater := fun prev =>
  {| originalImage := originalImage prev;
     generatedAvatar := None;
     isGenerating := true;
     error := None;
     style := style prev;
     history := history prev;
     isDragging := isDragging prev;
     progressStep := progressStep prev;
     progressPercent := progressPercent prev |}.

(** [handleGenerate] up to its [await]: [None] is the early [return];
    otherwise the updater applied at once and the call that is awaited. *)
Definition handleGenerate (state : ExtendedAppState)
  : option (Updater * GenerateCall) :=
  if negb (truthy (originalImage state)) then None
  else match originalImage state with
       | Some image =>
           Some (beginGenerating,
                 {| call_image := image; call_style := style state |})
       | None => None
       end.

(** [newHistoryItem]; [idNow] and [timestampNow] are the two readings of
    [Date.now()]. *)
Definition newHistoryItem (call : GenerateCall) (result : string)
    (idNow timestampNow : Z) : HistoryItem.t :=
  {| HistoryItem.id := toString idNow;
     HistoryItem.originalImage := call_image call;
     HistoryItem.generatedAvatar := result;
     HistoryItem.style := call_style call;
     HistoryItem.timestamp := timestampNow |}.

(** [xs.slice(0, n)]. *)
Definition slice0 {A : Type} (n : nat) (xs : list A) : list A := firstn n xs.

(** The updater of the [try] branch, after the [await] has produced
    [result]. *)
Definition generateSucceeded (call : GenerateCall) (result : string)
    (idNow timestampNow : Z) : Updater := fun prev =>
  {| originalImage := originalImage prev;
     generatedAvatar := Some result;
     isGenerating := false;
     style := style prev;
     error := error prev;
     history :=
       slice0 HISTORY_CAP
         (newHistoryItem call result idNow timestampNow :: history prev);
     isDragging := isDragging prev;
     progressStep := progressStep prev;
     progressPercent := 100 |}.

Definition generateFailedMessage : string := "生成失败，请重试。".

(** The updater of the [catch] branch. *)
Definition generateFailed (err : JsError) : Updater := fun prev =>
  {| originalImage := originalImage prev;
     generatedAvatar := generatedAvatar prev;
     isGenerating := false;
     style := style prev;
     error := Some (or_else (message err) generateFailedMessage);
     history := history prev;
     isDragging := isDragging prev;
     progressStep := progressStep prev;
     progressPercent := progressPercent prev |}.

(** [handleGenerate] after its [await]. *)
Definition handleGenerate_settled (call : GenerateCall)
    (outcome : Settled string) (idNow timestampNow : Z) : Updater :=
  match outcome with
  | Fulfilled result => generateSucceeded call result idNow timestampNow
  | Rejected err => generateFailed err
  end.

(** The [disabled] attribute of the generate button. *)
Definition generateDisabled (state : ExtendedAppState) : bool :=
  negb (truthy (originalImage state)) || isGenerating state.

(** A click on the generate button: a disabled button delivers no click;
    an enabled one runs [handleGenerate]. *)
Definition clickGenerate (state : ExtendedAppState)
  : option (Updater * GenerateCall) :=
  if generateDisabled state then None else handleGenerate state.

(* ===================================================================== *)
(** ** App.tsx: history                                                   *)
(* ===================================================================== *)

Definition handleSelectHistoryItem (item : HistoryItem.t) : Updater := fun prev =>
  {| originalImage := Some (HistoryItem.originalImage item);
     generatedAvatar := Some (HistoryItem.generatedAvatar item);
     isGenerating := isGenerating prev;
     style := HistoryItem.style item;
     error := None;
     history := history prev;
     isDragging := isDragging prev;
     progressStep := progressStep prev;
     progressPercent := progressPercent prev |}.

(** [prev.history.filter(item => item.id !== id)]. *)
Definition deleteHistoryItem (id : string) (h : list HistoryItem.t)
  : list HistoryItem.t :=
  filter (fun item => negb (HistoryItem.id item =? id)) h.

Definition handleDeleteHistoryItem (id : string) : Updater := fun prev =>
  with_history (deleteHistoryItem id (history prev)) prev.

(** [handleClearHistory], given the answer of [window.confirm]. *)
Definition handleClearHistory (confirmed : bool) : Updater :=
  if confirmed then with_history [] else fun prev => prev.

(** What [localStorage.getItem] finds under the key at start-up: nothing
    (or the empty string), text [JSON.parse] throws on, or text that
    parses. What parses is taken at the type the state declares for the
    field it is put in, [HistoryItem[]]; text that parses to something
    else (null, a number, an object) is not a value of that type and is
    outside this model. *)
Inductive SavedHistory :=
| Absent
| Unparsable
| Parsed (items : list HistoryItem.t).

(** The load effect: [parsed] is installed as it is. *)
Definition loadHistory (saved : SavedHistory) : Updater :=
  match saved with
  | Parsed items => with_history items
  | Absent | Unparsable => fun prev => prev
  end.

(* ===================================================================== *)
(** ** The running application                                            *)
(* ===================================================================== *)

(** The component together with what surrounds it: the clock, the progress
    interval (with the [startTime] its callback closes over), the calls to
    [generateAvatar] that have not settled, the FileReaders that have not
    finished, and the list stored under [LOCAL_STORAGE_KEY]. *)
Record World := {
  state : ExtendedAppState;
  clock : Z;
  interval : option Z;
  inFlight : list GenerateCall;
  reading : list File;
  localStorage : list HistoryItem.t
}.

(** What can happen to the page. Buttons are named by what the user
    clicks; [n] picks one of several pending or rendered things. *)
Inductive Event :=
| ChooseFile (file : option File)
| DragOver
| DragLeave
| Drop (file : option File)
| LoadEnd (n : nat)
| ClickRandomStyle (r : Unit01)
| ClickStyle (s : AvatarStyle)
| ClickGenerate
| Settle (n : nat) (outcome : Settled string) (lag : N)
| Tick
| ClickHistoryItem (n : nat)
| ClickDelete (n : nat)
| ClickClearHistory (confirmed : bool).

Definition apply (u : Updater) (w : World) : World :=
  {| state := u (state w);
     clock := clock w;
     interval := interval w;
     inFlight := inFlight w;
     reading := reading w;
     localStorage := localStorage w |}.

Definition advance (dt : N) (w : World) : World :=
  {| state := state w;
     clock := clock w + Z.of_N dt;
     interval := interval w;
     inFlight := inFlight w;
     reading := reading w;
     localStorage := localStorage w |}.

Definition startRead (read : option File) (w : World) : World :=
  {| state := state w;
     clock := clock w;
     interval := interval w;
     inFlight := inFlight w;
     reading := match read with
                | Some f => reading w ++ [f]
                | None => reading w
                end;
     localStorage := localStorage w |}.

Definition startCall (call : GenerateCall) (w : World) : World :=
  {| state := state w;
     clock := clock w;
     interval := interval w;
     inFlight := inFlight w ++ [call];
     reading := reading w;
     localStorage := localStorage w |}.

(** The list without its [n]-th element. *)
Fixpoint without {A : Type} (n : nat) (xs : list A) : list A :=
  match n, xs with
  | _, [] => []
  | O, _ :: rest => rest
  | S m, x :: rest => x :: without m rest
  end.

Definition finishRead (n : nat) (w : World) : World :=
  {| state := state w;
     clock := clock w;
     interval := interval w;
     inFlight := inFlight w;
     reading := without n (reading w);
     localStorage := localStorage w |}.

Definition finishCall (n : nat) (w : World) : World :=
  {| state := state w;
     clock := clock w;
     interval := interval w;
     inFlight := without n (inFlight w);
     reading := reading w;
     localStorage := localStorage w |}.

(** The handler an event runs, on the state it finds. A disabled button
    runs nothing; an event that names no pending call, read or rendered
    card does not occur. *)
Definition handle (w : World) (e : Event) : World :=
  match e with
  | ChooseFile file =>
      let (u, read) := handleFileUpload file in startRead read (apply u w)
  | DragOver => apply handleDragOver w
  | DragLeave => apply handleDragLeave w
  | Drop file =>
      let (u, read) := handleDrop file in startRead read (apply u w)
  | LoadEnd n =>
      match nth_error (reading w) n with
      | Some f => apply (onloadend (dataURL f)) (finishRead n w)
      | None => w
      end
  | ClickRandomStyle r =>
      if isGenerating (state w) then w
      else apply (handleRandomStyle (state w) r) w
  | ClickStyle s =>
      if isGenerating (state w) then w else apply (selectStyle s) w
  | ClickGenerate =>
      match clickGenerate (state w) with
      | Some (u, call) => startCall call (apply u w)
      | None => w
      end
  | Settle n outcome lag =>
      match nth_error (inFlight w) n with
      | Some call =>
          let idNow := clock w in
          let timestampNow := (clock w + Z.of_N lag)%Z in
          advance lag
            (apply (handleGenerate_settled call outcome idNow timestampNow)
               (finishCall n w))
      | None => w
      end
  | Tick =>
      match interval w with
      | Some startTime => apply (tick startTime (clock w)) w
      | None => w
      end
  | ClickHistoryItem n =>
      match nth_error (history (state w)) n with
      | Some item => apply (handleSelectHistoryItem item) w
      | None => w
      end
  | ClickDelete n =>
      match nth_error (history (state w)) n with
      | Some item => apply (handleDeleteHistoryItem (HistoryItem.id item)) w
      | None => w
      end
  | ClickClearHistory confirmed =>
      match history (state w) with
      | [] => w
      | _ :: _ => apply (handleClearHistory confirmed) w
      end
  end.

(** The effects that follow a render. [before] is the state of the
    previous render. The save effect stores the history; the progress
    effect runs when [isGenerating] changed: it starts the interval with
    [startTime = Date.now()], or clears it and resets the progress. *)
Definition effects (before : ExtendedAppState) (w : World) : World :=
  let changed := negb (Bool.eqb (isGenerating before) (isGenerating (state w))) in
  {| state := if changed && negb (isGenerating (state w))
              then resetProgress (state w) else state w;
     clock := clock w;
     interval := if changed
                 then (if isGenerating (state w) then Some (clock w) else None)
                 else interval w;
     inFlight := inFlight w;
     reading := reading w;
     localStorage := history (state w) |}.

(** One event, [dt] milliseconds after the previous one. *)
Definition step (w : World) (e : N * Event) : World :=
  let (dt, ev) := e in
  effects (state w) (handle (advance dt w) ev).

Definition run (w : World) (events : list (N * Event)) : World :=
  fold_left step events w.

(** The page after its first render and its mount effects, opened at time
    [now] on a store that holds [saved]. *)
Definition mount (saved : SavedHistory) (now : Z) : World :=
  let s := resetProgress (loadHistory saved initialState) in
  {| state := s;
     clock := now;
     interval := None;
     inFlight := [];
     reading := [];
     localStorage := history s |}.

Definition savedLength (saved : SavedHistory) : nat :=
  match saved with
  | Parsed items => List.length items
  | Absent | Unparsable => 0
  end.

(* ===================================================================== *)
(** ** App.tsx: download                                                  *)
(* ===================================================================== *)



(** The condition under which the save button of the avatar card is
    rendered: [state.generatedAvatar && !state.isGenerating]. *)
Definition downloadShown (state : ExtendedAppState) : bool :=
  truthy (generatedAvatar state) && negb (isGenerating state).

(* ===================================================================== *)
(** ** Reloading the page                                                 *)
(* ===================================================================== *)

(** What the store holds after a series of sessions, each opened at its
    time on what the one before left and closed after its events. The
    list written by [JSON.stringify] is the list [JSON.parse] reads
    back. *)
Fixpoint reopen (stored : SavedHistory) (sessions : list (Z * list (N * Event)))
  : SavedHistory :=
  match sessions with
  | [] => stored
  | (now, events) :: rest =>
      reopen (Parsed (localStorage (run (mount stored now) events))) rest
  end.

(** Events told apart by kind. *)
Definition isCardClick (e : Event) : bool :=
  match e with
  | ClickHistoryItem _ => true
  | _ => false
  end.

Definition isSettle (e : Event) : bool :=
  match e with
  | Settle _ _ _ => true
  | _ => false
  end.

(** No card of the history is clicked during the run. *)
Definition noCardClick (events : list (N * Event)) : bool :=
  forallb (fun e => negb (isCardClick (snd e))) events.

(** Every settlement comes at least a millisecond after the event before
    it. *)
Definition settlesLater (events : list (N * Event)) : bool :=
  forallb (fun e => negb (isSettle (snd e)) || (0 <? fst e)%N) events.

(* ===================================================================== *)
(** ** What holds of every state the application reaches                  *)
(* ===================================================================== *)

(** One call is pending exactly while [isGenerating] is true. *)
Definition tracking (w : World) : Prop :=
  List.length (inFlight w) = if isGenerating (state w) then 1%nat else 0%nat.

(** While generating, the interval runs and the progress lies between 0
    and what a tick would write now; otherwise the interval is cleared and
    the progress is 0. *)
Definition progressing (w : World) : Prop :=
  if isGenerating (state w)
  then exists startTime : Z,
         interval w = Some startTime /\
         (startTime <= clock w)%Z /\
         0 <= progressPercent (state w) /\
         progressPercent (state w) <= rawPercent (clock w - startTime)
  else interval w = None /\ progressPercent (state w) = 0.

(** What holds of every state the application reaches. *)
Definition consistent (w : World) : Prop :=
  tracking w /\ progressing w /\ localStorage w = history (state w).

(** The ids in the history and the times they were made at. *)
Definition idsFresh (w : World) : Prop :=
  NoDup (map HistoryItem.id (history (state w))) /\
  Forall (fun item => exists t, HistoryItem.id item = toString t /\ (t <= clock w)%Z)
    (history (state w)).

(** The history, newest first and not from the future. *)
Definition newestFirst (w : World) : Prop :=
  StronglySorted
    (fun a b => (HistoryItem.timestamp b <= HistoryItem.timestamp a)%Z)
    (history (state w)) /\
  Forall (fun item => (HistoryItem.timestamp item <= clock w)%Z) (history (state w)).

(** One call at most is pending, and it was made with the style of the
    state. *)
Definition styleKept (w : World) : Prop :=
  tracking w /\
  Forall (fun call => call_style call = style (state w)) (inFlight w).

(* ===================================================================== *)
(** ** Sample inputs and runs                                             *)
(* ===================================================================== *)

(** An answer of the model: a text part, then an image part. *)
Definition sample_response : GeminiService.GenerateContentResponse :=
  {| GeminiService.candidates :=
       Some [ {| GeminiService.content :=
                   Some {| GeminiService.parts :=
                             Some [ {| GeminiService.inlineData := None;
                                       GeminiService.text := Some "Here it is" |};
                                    {| GeminiService.inlineData :=
                                         Some {| GeminiService.data := Some "iVBORw0KGgo=";
                                                 GeminiService.mimeType := Some "image/jpeg" |};
                                       GeminiService.text := None |} ] |} |} ] |}.

Definition sample_pdf : File :=
  {| type := "application/pdf"; dataURL := Some "data:application/pdf;base64,JVBERi0=" |}.

Definition sample_ready : ExtendedAppState :=
  {| originalImage := Some "data:image/jpeg;base64,/9j/4AAQ";
     generatedAvatar := Some "data:image/png;base64,iVBORw0KGgo=";
     isGenerating := false;
     style := COMIC;
     error := None;
     history := [];
     isDragging := false;
     progressStep := 0;
     progressPercent := 0 |}.

Definition sample_item (n : Z) : HistoryItem.t :=
  {| HistoryItem.id := toString n;
     HistoryItem.originalImage := "data:image/jpeg;base64,/9j/4AAQ";
     HistoryItem.generatedAvatar := "data:image/png;base64,iVBORw0KGgo=";
     HistoryItem.style := SKETCH;
     HistoryItem.timestamp := n |}.

Definition sample_photo : File :=
  {| type := "image/jpeg"; dataURL := Some "data:image/jpeg;base64,/9j/4AAQ" |}.

Definition sample_start : Z := 1700000000000.

(** A photograph is chosen and read, generation is started, and the
    interval has fired once, a second and a half later. *)
Definition sample_events : list (N * Event) :=
  [ (0%N, ChooseFile (Some sample_photo));
    (40%N, LoadEnd 0);
    (900%N, ClickGenerate);
    (1500%N, Tick) ].

Definition sample_generating : World := run (mount Absent sample_start) sample_events.

(** Histories of 20 and of 21 items, newest first. *)
Definition sample_history (n : nat) : list HistoryItem.t :=
  map (fun k => sample_item (sample_start - Z.of_nat k)) (seq 1 n).

(** Opened on a full history: a photograph is taken back from the newest
    card, a generation succeeds, and the oldest card goes. *)
Definition sample_append : list (N * Event) :=
  [ (500%N, ClickHistoryItem 0);
    (700%N, ClickGenerate);
    (100%N, Tick);
    (12000%N, Settle 0 (Fulfilled "data:image/png;base64,AAAA") 1%N) ].

(** An answer whose first candidate is text only; the image is in the
    second. *)
Definition sample_text_first : GeminiService.GenerateContentResponse :=
  {| GeminiService.candidates :=
       Some [ {| GeminiService.content :=
                   Some {| GeminiService.parts :=
                             Some [ {| GeminiService.inlineData := None;
                                       GeminiService.text := Some "I cannot draw this" |} ] |} |};
              {| GeminiService.content :=
                   Some {| GeminiService.parts :=
                             Some [ {| GeminiService.inlineData :=
                                         Some {| GeminiService.data := Some "iVBORw0KGgo=";
                                                 GeminiService.mimeType := Some "image/png" |};
                                       GeminiService.text := None |} ] |} |} ] |}.

(** A photograph is chosen and read. *)
Definition sample_loaded : World :=
  run (mount Absent sample_start)
    [ (0%N, ChooseFile (Some sample_photo)); (40%N, LoadEnd 0) ].

(** Two generations in a row, the second from another style, and the
    first card deleted in between. *)
Definition sample_two_generations : list (N * Event) :=
  [ (0%N, ChooseFile (Some sample_photo));
    (40%N, LoadEnd 0);
    (900%N, ClickGenerate);
    (9000%N, Settle 0 (Fulfilled "data:image/png;base64,AAAA") 0%N);
    (2000%N, ClickStyle GOTHIC);
    (300%N, ClickGenerate);
    (100%N, Tick);
    (8000%N, Settle 0 (Fulfilled "data:image/png;base64,BBBB") 1%N) ].

(** One half, and the double [2573485501354569 / 2 ^ 52], the largest one
    below four sevenths. *)
Definition sample_half : Unit01 :=
  {| significand := 2 ^ 52; scale := 53 |}.


(** A history in which the first and the last item have the same id. *)
Definition sample_twins : list HistoryItem.t :=
  [ {| HistoryItem.id := "1700000000007";
       HistoryItem.originalImage := "data:image/jpeg;base64,/9j/4AAQ";
       HistoryItem.generatedAvatar := "data:image/png;base64,BBBB";
       HistoryItem.style := GOTHIC;
       HistoryItem.timestamp := 1700000000008 |};
    sample_item 1700000000005;
    {| HistoryItem.id := "1700000000007";
       HistoryItem.originalImage := "data:image/jpeg;base64,/9j/4AAQ";
       HistoryItem.generatedAvatar := "data:image/png;base64,AAAA";
       HistoryItem.style := PIXAR;
       HistoryItem.timestamp := 1700000000007 |} ].

(** Nothing stored; two generations settle in the same millisecond. *)
Definition sample_same_millisecond : list (N * Event) :=
  [ (0%N, ChooseFile (Some sample_photo));
    (40%N, LoadEnd 0);
    (900%N, ClickGenerate);
    (9000%N, Settle 0 (Fulfilled "data:image/png;base64,AAAA") 0%N);
    (0%N, ClickGenerate);
    (0%N, Settle 0 (Fulfilled "data:image/png;base64,BBBB") 0%N) ].

(* ===================================================================== *)
(** * Properties                                                          *)
(* ===================================================================== *)

(** ** JavaScript values *)

Lemma truthy_Some (s : string) : truthy (Some s) = true <-> s <> "".
Proof.
  unfold truthy. destruct (String.eqb_spec s ""); simpl; split; congruence.
Qed.

Lemma or_else_message (m fallback : string) :
  m <> "" -> or_else (Some m) fallback = m.
Proof.
  intros H. unfold or_else. destruct (String.eqb_spec m ""); congruence.
Qed.

Lemma or_else_nonempty (v : option string) (fallback : string) :
  fallback <> "" -> or_else v fallback <> "".
Proof.
  intros H. destruct v as [s|]; simpl; auto.
  destruct (String.eqb_spec s ""); auto.
Qed.

Lemma startsWith_append (p s : string) : startsWith (p ++ s) p = true.
Proof.
  unfold startsWith. induction p as [|a p IH]; simpl.
  - destruct s; reflexivity.
  - destruct (Ascii.ascii_dec a a); [exact IH | congruence].
Qed.



(** ** generateAvatar *)

Module GeminiServiceFacts.
Import GeminiService.

Lemma scan_parts_shape (ps : list Part) :
  scan_parts ps = "" \/
  exists d, scan_parts ps = "data:image/png;base64," ++ d.
Proof.
  induction ps as [|p rest IH]; simpl.
  - now left.
  - destruct (inlineData p) as [d|]; [right; eauto | exact IH].
Qed.

Lemma imageUrl_of_shape (response : GenerateContentResponse) :
  imageUrl_of response = "" \/
  exists d, imageUrl_of response = "data:image/png;base64," ++ d.
Proof.
  unfold imageUrl_of. destruct (first_candidate_parts response).
  - apply scan_parts_shape.
  - now left.
Qed.

(** A fulfilled [generateAvatar] is the URL read off the response. *)
Lemma generateAvatar_fulfilled stylePrompts systemInstruction promptSuffix
    generateContent apiKey base64Image style url :
  generateAvatar stylePrompts systemInstruction promptSuffix generateContent
    apiKey base64Image style = Fulfilled url ->
  exists response,
    generateContent
      (request_for stylePrompts systemInstruction promptSuffix base64Image style)
      = Fulfilled response /\
    imageUrl_of response = url /\ url <> "".
Proof.
  unfold generateAvatar. destruct (negb (truthy apiKey)); [discriminate|].
  destruct (generateContent _) as [response|err]; [|discriminate].
  destruct (String.eqb_spec (imageUrl_of response) "") as [E|E]; [discriminate|].
  intros H. injection H as <-. eauto.
Qed.

End GeminiServiceFacts.

(** C10. Whatever the input payload (and so whatever media type it
    declares), the style, the API key and the model's answer: when
    [generateAvatar] is fulfilled, the string it returns is
    ["data:image/png;base64,"] followed by the data of the response, so it
    starts with that prefix. *)
Theorem generateAvatar_returns_png_data_url
    (stylePrompts : AvatarStyle -> string)
    (systemInstruction promptSuffix : string)
    (generateContent : GeminiService.GenerateContentRequest ->
                       Settled GeminiService.GenerateContentResponse)
    (apiKey : option string) (base64Image : string) (style : AvatarStyle)
    (url : string) :
  GeminiService.generateAvatar stylePrompts systemInstruction promptSuffix
    generateContent apiKey base64Image style = Fulfilled url ->
  startsWith url "data:image/png;base64," = true /\
  exists d, url = "data:image/png;base64," ++ d.
Proof.
  intros H.
  destruct (GeminiServiceFacts.generateAvatar_fulfilled _ _ _ _ _ _ _ _ H)
    as (response & _ & Hurl & Hne).
  destruct (GeminiServiceFacts.imageUrl_of_shape response) as [E|[d E]].
  - congruence.
  - rewrite Hurl in E. rewrite E. split; [apply startsWith_append | eauto].
Qed.

(** A JPEG photograph goes in and the avatar comes back declared as
    PNG. *)
Lemma generateAvatar_returns_png_data_url_witness :
  GeminiService.generateAvatar (fun _ => "prompt") "system" " suffix"
    (fun _ => Fulfilled sample_response)
    (Some "key") "data:image/jpeg;base64,/9j/4AAQ" ANIME
  = Fulfilled "data:image/png;base64,iVBORw0KGgo=" /\
  startsWith "data:image/png;base64,iVBORw0KGgo=" "data:image/png;base64," = true.
Proof.
  split.
  - reflexivity.
  - apply (generateAvatar_returns_png_data_url (fun _ => "prompt") "system" " suffix"
             (fun _ => Fulfilled sample_response)
             (Some "key") "data:image/jpeg;base64,/9j/4AAQ" ANIME
             "data:image/png;base64,iVBORw0KGgo=").
    reflexivity.
Defined.

(** ** Image ingestion *)

Lemma invalidFileMessage_nonempty : invalidFileMessage <> "".
Proof. discriminate. Qed.

(** C7. A file whose declared media type does not start with [image/] is
    rejected by [processFile]: no read is started, [error] becomes a
    non-empty message, and [originalImage], [generatedAvatar] and every
    other field of the state keep their values. *)
Theorem processFile_rejects_non_image (file : File) (prev : ExtendedAppState) :
  startsWith (type file) "image/" = false ->
  let after := fst (processFile file) prev in
  snd (processFile file) = None /\
  originalImage after = originalImage prev /\
  generatedAvatar after = generatedAvatar prev /\
  isGenerating after = isGenerating prev /\
  style after = style prev /\
  history after = history prev /\
  isDragging after = isDragging prev /\
  progressStep after = progressStep prev /\
  progressPercent after = progressPercent prev /\
  exists msg, error after = Some msg /\ msg <> "".
Proof.
  intros H. unfold processFile. rewrite H. simpl.
  repeat split; try reflexivity.
  exists invalidFileMessage. split; [reflexivity | apply invalidFileMessage_nonempty].
Qed.

Lemma processFile_rejects_non_image_witness :
  startsWith (type sample_pdf) "image/" = false /\
  originalImage (fst (processFile sample_pdf) sample_ready)
    = Some "data:image/jpeg;base64,/9j/4AAQ" /\
  generatedAvatar (fst (processFile sample_pdf) sample_ready)
    = Some "data:image/png;base64,iVBORw0KGgo=".
Proof.
  split; [reflexivity|].
  pose proof (processFile_rejects_non_image sample_pdf sample_ready eq_refl) as H.
  cbv zeta in H. destruct H as (_ & Ho & Hg & _).
  split; [exact Ho | exact Hg].
Defined.

(** The picker hands the file to [processFile] unchanged; the drop handler
    lowers the drag flag before it does. *)
Lemma handleFileUpload_is_processFile (file : File) :
  handleFileUpload (Some file) = processFile file.
Proof. reflexivity. Qed.

Lemma handleDrop_rejects_non_image (file : File) (prev : ExtendedAppState) :
  startsWith (type file) "image/" = false ->
  fst (handleDrop (Some file)) prev
    = with_error (Some invalidFileMessage) (with_isDragging false prev) /\
  snd (handleDrop (Some file)) = None.
Proof. intros H. unfold handleDrop, processFile. rewrite H. now simpl. Qed.

(** An accepted file changes nothing until its read ends; then the three
    fields are set together. *)
Lemma processFile_accepts_image (file : File) (prev : ExtendedAppState) :
  startsWith (type file) "image/" = true ->
  processFile file = (fun prev => prev, Some file) /\
  originalImage (onloadend (dataURL file) prev) = dataURL file /\
  error (onloadend (dataURL file) prev) = None /\
  generatedAvatar (onloadend (dataURL file) prev) = None.
Proof. intros H. unfold processFile. rewrite H. now simpl. Qed.

(** ** Dispatching a generation *)

Lemma handleGenerate_dispatches (state : ExtendedAppState) (image : string) :
  originalImage state = Some image -> image <> "" ->
  handleGenerate state
  = Some (beginGenerating, {| call_image := image; call_style := style state |}).
Proof.
  intros H Hne. unfold handleGenerate. rewrite H.
  apply truthy_Some in Hne. now rewrite Hne.
Qed.

Lemma handleGenerate_Some (state : ExtendedAppState) u call :
  handleGenerate state = Some (u, call) ->
  u = beginGenerating /\
  originalImage state = Some (call_image call) /\
  call_image call <> "" /\
  call_style call = style state.
Proof.
  unfold handleGenerate.
  destruct (truthy (originalImage state)) eqn:T; simpl; [|discriminate].
  destruct (originalImage state) as [image|]; [|discriminate].
  intros H. injection H as <- <-. simpl. apply truthy_Some in T. auto.
Qed.

Lemma clickGenerate_Some (state : ExtendedAppState) u call :
  clickGenerate state = Some (u, call) ->
  isGenerating state = false /\ handleGenerate state = Some (u, call).
Proof.
  unfold clickGenerate, generateDisabled.
  destruct (negb (truthy (originalImage state))); simpl; [discriminate|].
  destruct (isGenerating state); [discriminate | auto].
Qed.

(** C8. With [originalImage] null, [handleGenerate] returns at once: it
    applies no updater and calls nothing; a click on the button leaves
    every field of the state and the list of pending calls as they
    were. *)
Theorem handleGenerate_without_image (w : World) (dt : N) :
  originalImage (state w) = None ->
  handleGenerate (state w) = None /\
  clickGenerate (state w) = None /\
  state (step w (dt, ClickGenerate)) = state w /\
  inFlight (step w (dt, ClickGenerate)) = inFlight w.
Proof.
  intros H.
  assert (Hh : handleGenerate (state w) = None).
  { unfold handleGenerate. now rewrite H. }
  assert (Hc : clickGenerate (state w) = None).
  { unfold clickGenerate, generateDisabled. now rewrite H. }
  repeat split; auto.
  - unfold step, handle. simpl. rewrite Hc. simpl.
    rewrite Bool.eqb_reflx. reflexivity.
  - unfold step, handle. simpl. rewrite Hc. reflexivity.
Qed.

Lemma handleGenerate_without_image_witness :
  handleGenerate (state (mount Absent 1700000000000)) = None /\
  state (step (mount Absent 1700000000000) (250%N, ClickGenerate))
    = state (mount Absent 1700000000000).
Proof.
  pose proof (handleGenerate_without_image (mount Absent 1700000000000) 250%N eq_refl)
    as (H1 & _ & H3 & _).
  split; [exact H1 | exact H3].
Defined.

(** ** Settling a generation *)

Lemma slice0_length {A : Type} (n : nat) (xs : list A) :
  List.length (slice0 n xs) = Nat.min n (List.length xs).
Proof. apply length_firstn. Qed.

Lemma generateSucceeded_history_length call result idNow timestampNow prev :
  List.length (history (generateSucceeded call result idNow timestampNow prev))
  = Nat.min (List.length (history prev) + 1) 20.
Proof.
  unfold generateSucceeded. cbn [history]. rewrite slice0_length.
  cbn [List.length]. unfold HISTORY_CAP. lia.
Qed.

(** C1. A generation dispatched from a state whose [originalImage] is set
    calls the client with that image and the selected style [S]. When the
    client resolves with [P], whatever state [prev] the page is in by then:
    [generatedAvatar] is [P], [isGenerating] is false, [history[0]] is the
    new item, carrying [P], [S] and the image captured at dispatch, and
    the history has [min(previousLength + 1, 20)] entries. The last
    conjunct is the same count when nothing happened between dispatch and
    resolution. *)
Theorem generate_success (state prev : ExtendedAppState) (image P : string)
    (idNow timestampNow : Z) :
  originalImage state = Some image -> image <> "" ->
  exists call,
    handleGenerate state = Some (beginGenerating, call) /\
    call_image call = image /\
    call_style call = style state /\
    let after :=
      handleGenerate_settled call (Fulfilled P) idNow timestampNow prev in
    generatedAvatar after = Some P /\
    isGenerating after = false /\
    nth_error (history after) 0
      = Some (newHistoryItem call P idNow timestampNow) /\
    HistoryItem.generatedAvatar (newHistoryItem call P idNow timestampNow) = P /\
    HistoryItem.style (newHistoryItem call P idNow timestampNow) = style state /\
    HistoryItem.originalImage (newHistoryItem call P idNow timestampNow) = image /\
    List.length (history after) = Nat.min (List.length (history prev) + 1) 20 /\
    List.length
      (history (handleGenerate_settled call (Fulfilled P) idNow timestampNow
                  (beginGenerating state)))
    = Nat.min (List.length (history state) + 1) 20.
Proof.
  intros H Hne.
  exists {| call_image := image; call_style := style state |}.
  split; [now apply handleGenerate_dispatches|].
  cbn [handleGenerate_settled call_image call_style].
  repeat split; rewrite generateSucceeded_history_length; reflexivity.
Qed.

Lemma generate_success_witness :
  exists call,
    handleGenerate sample_ready = Some (beginGenerating, call) /\
    generatedAvatar
      (handleGenerate_settled call (Fulfilled "data:image/png;base64,AAAA")
         1700000004000 1700000004001 (beginGenerating sample_ready))
    = Some "data:image/png;base64,AAAA".
Proof.
  destruct (generate_success sample_ready (beginGenerating sample_ready)
              "data:image/jpeg;base64,/9j/4AAQ" "data:image/png;base64,AAAA"
              1700000004000 1700000004001 eq_refl)
    as (call & Hcall & _ & _ & Hafter).
  - discriminate.
  - exists call. split; [exact Hcall | exact (proj1 Hafter)].
Defined.

(** C3. A generation is dispatched from [state] and the client rejects
    with [err]. If nothing happened in between, then afterwards
    [isGenerating] is false, [generatedAvatar] is still the null written at
    dispatch, [history] is the one [state] had, and [error] is the
    message of [err], or the fixed fallback when [err] has none (absent or
    empty). Whatever the state [prev] at rejection, the [catch] branch
    writes [isGenerating] and [error] only. *)
Theorem generate_failure (state prev : ExtendedAppState) (u : Updater)
    (call : GenerateCall) (err : JsError) (idNow timestampNow : Z) :
  handleGenerate state = Some (u, call) ->
  let dispatched := u state in
  let after :=
    handleGenerate_settled call (Rejected err) idNow timestampNow dispatched in
  generatedAvatar dispatched = None /\
  isGenerating after = false /\
  generatedAvatar after = None /\
  history after = history state /\
  (forall M, message err = Some M -> M <> "" -> error after = Some M) /\
  (message err = None \/ message err = Some "" ->
   error after = Some generateFailedMessage) /\
  generateFailedMessage <> "" /\
  let after' := generateFailed err prev in
  isGenerating after' = false /\
  error after' = Some (or_else (message err) generateFailedMessage) /\
  originalImage after' = originalImage prev /\
  generatedAvatar after' = generatedAvatar prev /\
  style after' = style prev /\
  history after' = history prev /\
  isDragging after' = isDragging prev /\
  progressStep after' = progressStep prev /\
  progressPercent after' = progressPercent prev.
Proof.
  intros H. apply handleGenerate_Some in H as (-> & _).
  cbn zeta. cbn [handleGenerate_settled].
  repeat split.
  - intros M HM Hne. cbn [generateFailed error]. rewrite HM.
    now rewrite or_else_message.
  - intros [HM|HM]; cbn [generateFailed error]; now rewrite HM.
  - discriminate.
Qed.

Lemma generate_failure_witness :
  error (generateFailed (Error "quota exceeded") (beginGenerating sample_ready))
  = Some "quota exceeded".
Proof.
  pose proof (generate_failure sample_ready sample_ready beginGenerating
                {| call_image := "data:image/jpeg;base64,/9j/4AAQ"; call_style := COMIC |}
                (Error "quota exceeded") 1700000004000 1700000004000 eq_refl) as H.
  cbn zeta in H. destruct H as (_ & _ & _ & _ & HM & _).
  apply (HM "quota exceeded"); [reflexivity | discriminate].
Defined.

(** ** Deleting from the history *)

Open Scope list_scope.

Lemma deleteHistoryItem_app (id : string) (a b : list HistoryItem.t) :
  deleteHistoryItem id (a ++ b) = deleteHistoryItem id a ++ deleteHistoryItem id b.
Proof. apply filter_app. Qed.

(** What stays: the entries with another id, and no other. *)
Lemma deleteHistoryItem_In (id : string) (h : list HistoryItem.t) (item : HistoryItem.t) :
  In item (deleteHistoryItem id h) <-> In item h /\ HistoryItem.id item <> id.
Proof.
  unfold deleteHistoryItem. rewrite filter_In.
  destruct (String.eqb_spec (HistoryItem.id item) id); simpl; intuition congruence.
Qed.

Lemma deleteHistoryItem_no_match (id : string) (h : list HistoryItem.t) :
  (forall item, In item h -> HistoryItem.id item <> id) ->
  deleteHistoryItem id h = h.
Proof.
  induction h as [|x h IH]; intros H; simpl; [reflexivity|].
  destruct (String.eqb_spec (HistoryItem.id x) id) as [E|E]; simpl.
  - exfalso. apply (H x); [now left | exact E].
  - f_equal. apply IH. intros item Hin. apply H. now right.
Qed.

Lemma deleteHistoryItem_length (id : string) (h : list HistoryItem.t) :
  (List.length (deleteHistoryItem id h) <= List.length h)%nat.
Proof. apply filter_length_le. Qed.

Lemma deleteHistoryItem_count (id : string) (h : list HistoryItem.t) :
  (List.length (deleteHistoryItem id h)
   + List.length (filter (fun item => HistoryItem.id item =? id)%string h)
   = List.length h)%nat.
Proof.
  unfold deleteHistoryItem.
  induction h as [|x h IH]; cbn [filter]; [reflexivity|].
  destruct (HistoryItem.id x =? id)%string; cbn [negb List.length]; lia.
Qed.

Lemma deleteHistoryItem_unique (id : string) (before after : list HistoryItem.t)
    (item : HistoryItem.t) :
  NoDup (map HistoryItem.id (before ++ item :: after)) ->
  HistoryItem.id item = id ->
  deleteHistoryItem id (before ++ item :: after) = before ++ after.
Proof.
  intros Hnd Hid.
  rewrite map_app in Hnd. cbn [map] in Hnd.
  apply NoDup_remove_2 in Hnd. rewrite Hid in Hnd.
  rewrite deleteHistoryItem_app. unfold deleteHistoryItem at 2.
  cbn [filter]. rewrite Hid, String.eqb_refl. cbn [negb].
  fold (deleteHistoryItem id after).
  rewrite !deleteHistoryItem_no_match; [reflexivity| |];
    intros x Hin Hx; apply Hnd; apply in_or_app;
    [right | left]; rewrite <- Hx; now apply in_map.
Qed.

(** C6, as the code has it. Deleting by [id] keeps exactly the entries
    with another id: every entry that carries [id] goes, as many as there
    are, and two entries that stay are in the order they were in. When no
    entry carries [id] the list is returned as it was; when the ids of the
    list are pairwise different the one entry that carries [id] goes and
    the entries before and after it stay. The handler writes the filtered
    list to [history] and no other field. *)
Theorem deleteHistoryItem_removes_every_match (h : list HistoryItem.t)
    (id : string) (prev : ExtendedAppState) :
  (forall item,
      In item (deleteHistoryItem id h) <->
      In item h /\ HistoryItem.id item <> id) /\
  (List.length (deleteHistoryItem id h)
   + List.length (filter (fun item => HistoryItem.id item =? id)%string h)
   = List.length h)%nat /\
  (forall l1 x l2 y l3,
      h = l1 ++ x :: l2 ++ y :: l3 ->
      HistoryItem.id x <> id -> HistoryItem.id y <> id ->
      deleteHistoryItem id h
      = deleteHistoryItem id l1 ++ x :: deleteHistoryItem id l2
          ++ y :: deleteHistoryItem id l3) /\
  ((forall item, In item h -> HistoryItem.id item <> id) ->
      deleteHistoryItem id h = h) /\
  (NoDup (map HistoryItem.id h) ->
   forall before item after,
      h = before ++ item :: after -> HistoryItem.id item = id ->
      deleteHistoryItem id h = before ++ after) /\
  history (handleDeleteHistoryItem id prev) = deleteHistoryItem id (history prev) /\
  originalImage (handleDeleteHistoryItem id prev) = originalImage prev /\
  generatedAvatar (handleDeleteHistoryItem id prev) = generatedAvatar prev /\
  isGenerating (handleDeleteHistoryItem id prev) = isGenerating prev /\
  style (handleDeleteHistoryItem id prev) = style prev /\
  error (handleDeleteHistoryItem id prev) = error prev /\
  isDragging (handleDeleteHistoryItem id prev) = isDragging prev /\
  progressStep (handleDeleteHistoryItem id prev) = progressStep prev /\
  progressPercent (handleDeleteHistoryItem id prev) = progressPercent prev.
Proof.
  split; [intros item; apply deleteHistoryItem_In|].
  split; [apply deleteHistoryItem_count|].
  split.
  { intros l1 x l2 y l3 -> Hx Hy.
    assert (K : forall z rest, HistoryItem.id z <> id ->
                  deleteHistoryItem id (z :: rest) = z :: deleteHistoryItem id rest).
    { intros z rest Hz. unfold deleteHistoryItem. cbn [filter].
      now rewrite (proj2 (String.eqb_neq _ _) Hz). }
    rewrite deleteHistoryItem_app, (K x _ Hx), deleteHistoryItem_app, (K y _ Hy).
    reflexivity. }
  split; [apply deleteHistoryItem_no_match|].
  split.
  { intros Hnd before item after -> Hid. now apply deleteHistoryItem_unique. }
  repeat split.
Qed.

Lemma deleteHistoryItem_removes_every_match_witness :
  deleteHistoryItem "1700000002000"
    [sample_item 1700000003000; sample_item 1700000002000; sample_item 1700000001000]
  = [sample_item 1700000003000; sample_item 1700000001000].
Proof.
  assert (Hnd : NoDup (map HistoryItem.id
                         [sample_item 1700000003000; sample_item 1700000002000;
                          sample_item 1700000001000])).
  { repeat constructor; simpl; intuition discriminate. }
  destruct (deleteHistoryItem_removes_every_match
              [sample_item 1700000003000; sample_item 1700000002000;
               sample_item 1700000001000] "1700000002000" initialState)
    as (_ & _ & _ & _ & H & _).
  exact (H Hnd [sample_item 1700000003000] (sample_item 1700000002000)
           [sample_item 1700000001000] eq_refl eq_refl).
Defined.

(** ** Random style *)


Lemma AvatarStyle_values_NoDup : NoDup AvatarStyle_values.
Proof. repeat constructor; simpl; intuition discriminate. Qed.



Lemma availableStyles_NoDup (current : AvatarStyle) : NoDup (availableStyles current).
Proof. apply NoDup_filter, AvatarStyle_values_NoDup. Qed.

(** *** The rounded product *)

Open Scope Z_scope.









Close Scope Z_scope.

(** *** The style picked *)








(** ** The running application: what each event touches *)

Lemma clickGenerate_disabled (st : ExtendedAppState) :
  generateDisabled st = true -> clickGenerate st = None.
Proof. intros H. unfold clickGenerate. now rewrite H. Qed.

Lemma clickGenerate_enabled (st : ExtendedAppState) :
  generateDisabled st = false ->
  exists call, clickGenerate st = Some (beginGenerating, call).
Proof.
  intros H. unfold clickGenerate. rewrite H.
  unfold generateDisabled in H. apply orb_false_elim in H as [H _].
  unfold handleGenerate. rewrite H.
  destruct (originalImage st); [eauto | discriminate].
Qed.

Lemma without_length {A : Type} (n : nat) (xs : list A) (x : A) :
  nth_error xs n = Some x ->
  List.length (without n xs) = Nat.pred (List.length xs).
Proof.
  revert n. induction xs as [|a xs IH]; intros [|n] H; simpl in *;
    try discriminate; try reflexivity.
  rewrite (IH _ H). destruct xs; [destruct n; discriminate | reflexivity].
Qed.

(** Case analysis on the event, down to the branch [handle] takes. *)
Ltac by_event e w :=
  destruct e as [file| | |file|n|r|s| |n outcome lag| |n|n|confirmed];
  cbn [handle];
  [ destruct file as [?f|]; cbn [handleFileUpload];
    [unfold processFile; destruct (negb _)|]
  | | | destruct file as [?f|]; cbn [handleDrop];
    [unfold processFile; destruct (negb _)|]
  | destruct (nth_error (reading w) n) eqn:?R
  | destruct (isGenerating (state w)) eqn:?G;
    [|unfold handleRandomStyle; rewrite G; destruct (randomStyle _ _)]
  | destruct (isGenerating (state w)) eqn:?G
  | destruct (generateDisabled (state w)) eqn:?D;
    [ rewrite (clickGenerate_disabled _ D)
    | let call := fresh "call" in
      let E := fresh "E" in
      destruct (clickGenerate_enabled _ D) as [call E]; rewrite E ]
  | destruct (nth_error (inFlight w) n) eqn:?P; destruct outcome
  | destruct (interval w) eqn:?I
  | destruct (nth_error (history (state w)) n) eqn:?C
  | destruct (nth_error (history (state w)) n) eqn:?C
  | destruct (history (state w)) eqn:?C; [|destruct confirmed] ].

Lemma handle_isGenerating (w : World) (e : Event) :
  isGenerating (state (handle w e)) =
  match e with
  | ClickGenerate =>
      if generateDisabled (state w) then isGenerating (state w) else true
  | Settle n _ _ =>
      match nth_error (inFlight w) n with
      | Some _ => false
      | None => isGenerating (state w)
      end
  | _ => isGenerating (state w)
  end.
Proof. by_event e w; cbn; first [reflexivity | assumption | congruence]. Qed.

Lemma handle_inFlight_length (w : World) (e : Event) :
  List.length (inFlight (handle w e)) =
  match e with
  | ClickGenerate =>
      if generateDisabled (state w) then List.length (inFlight w)
      else S (List.length (inFlight w))
  | Settle n _ _ =>
      match nth_error (inFlight w) n with
      | Some _ => Nat.pred (List.length (inFlight w))
      | None => List.length (inFlight w)
      end
  | _ => List.length (inFlight w)
  end.
Proof.
  by_event e w; try reflexivity.
  - cbn. rewrite length_app. simpl. lia.
  - cbn. eapply without_length; eauto.
  - cbn. eapply without_length; eauto.
Qed.

Lemma handle_interval (w : World) (e : Event) :
  interval (handle w e) = interval w.
Proof. by_event e w; cbn; first [reflexivity | assumption | congruence]. Qed.

Lemma handle_clock (w : World) (e : Event) :
  (clock w <= clock (handle w e))%Z.
Proof. by_event e w; cbn; lia. Qed.

Lemma handle_progressPercent (w : World) (e : Event) :
  progressPercent (state (handle w e)) =
  match e with
  | Tick =>
      match interval w with
      | Some startTime => rawPercent (clock w - startTime)
      | None => progressPercent (state w)
      end
  | Settle n (Fulfilled _) _ =>
      match nth_error (inFlight w) n with
      | Some _ => 100
      | None => progressPercent (state w)
      end
  | _ => progressPercent (state w)
  end.
Proof. by_event e w; cbn; first [reflexivity | assumption | congruence]. Qed.

Lemma handle_history_length (w : World) (e : Event) :
  (List.length (history (state w)) <= 20 ->
   List.length (history (state (handle w e))) <= 20)%nat.
Proof.
  intros H. by_event e w; try exact H; try (cbn; lia).
  - cbn -[slice0]. rewrite slice0_length. unfold HISTORY_CAP. lia.
  - cbn -[deleteHistoryItem].
    etransitivity; [apply deleteHistoryItem_length | exact H].
  - rewrite C. exact H.
  - cbn. rewrite C. exact H.
Qed.

(** ** The running application: invariants *)

Lemma effects_isGenerating (before : ExtendedAppState) (w : World) :
  isGenerating (state (effects before w)) = isGenerating (state w).
Proof. cbn. destruct (_ && _); reflexivity. Qed.

Lemma effects_history (before : ExtendedAppState) (w : World) :
  history (state (effects before w)) = history (state w).
Proof. cbn. destruct (_ && _); reflexivity. Qed.

Lemma effects_progressPercent (before : ExtendedAppState) (w : World) :
  progressPercent (state (effects before w)) =
  if negb (Bool.eqb (isGenerating before) (isGenerating (state w)))
     && negb (isGenerating (state w))
  then 0 else progressPercent (state w).
Proof. cbn. destruct (_ && _); reflexivity. Qed.

Lemma effects_interval (before : ExtendedAppState) (w : World) :
  interval (effects before w) =
  if negb (Bool.eqb (isGenerating before) (isGenerating (state w)))
  then (if isGenerating (state w) then Some (clock w) else None)
  else interval w.
Proof. reflexivity. Qed.

Lemma effects_clock (before : ExtendedAppState) (w : World) :
  clock (effects before w) = clock w.
Proof. reflexivity. Qed.

Lemma rawPercent_le_98 (elapsed : Z) : rawPercent elapsed <= 98.
Proof. apply Q.le_min_r. Qed.

Lemma rawPercent_mono (a b : Z) : (a <= b)%Z -> rawPercent a <= rawPercent b.
Proof.
  intros H. unfold rawPercent. apply Q.min_le_compat_r.
  unfold Qle, Qdiv, Qmult, Qinv, inject_Z, expectedDuration. simpl. lia.
Qed.

Lemma rawPercent_nonneg (a : Z) : (0 <= a)%Z -> 0 <= rawPercent a.
Proof.
  intros H. unfold rawPercent. apply Q.min_glb; [|discriminate].
  unfold Qle, Qdiv, Qmult, Qinv, inject_Z, expectedDuration. simpl. lia.
Qed.

Lemma generating_disabled (st : ExtendedAppState) :
  isGenerating st = true -> generateDisabled st = true.
Proof. intros H. unfold generateDisabled. rewrite H. apply orb_true_r. Qed.

Lemma tracking_mount saved now : tracking (mount saved now).
Proof. unfold tracking. destruct saved; reflexivity. Qed.

Lemma tracking_step (w : World) (e : N * Event) :
  tracking w -> tracking (step w e).
Proof.
  unfold tracking. destruct e as [dt ev]. intros H. unfold step.
  rewrite effects_isGenerating. change (inFlight (effects ?b ?x)) with (inFlight x).
  rewrite handle_isGenerating, handle_inFlight_length.
  cbn [advance state inFlight].
  destruct ev; try exact H.
  - destruct (generateDisabled (state w)) eqn:D; [exact H|].
    destruct (isGenerating (state w)) eqn:G.
    + now rewrite generating_disabled in D.
    + now rewrite H.
  - destruct (nth_error (inFlight w) n) eqn:P; [|exact H].
    destruct (isGenerating (state w)); [now rewrite H|].
    destruct (inFlight w); [destruct n|]; discriminate.
Qed.

Lemma run_invariant (Inv : World -> Prop) :
  (forall w e, Inv w -> Inv (step w e)) ->
  forall events w, Inv w -> Inv (run w events).
Proof.
  intros Hstep events. induction events as [|e events IH]; intros w H.
  - exact H.
  - apply IH, Hstep, H.
Qed.

Lemma progressing_mount saved now : progressing (mount saved now).
Proof. unfold progressing. destruct saved; now cbn. Qed.

(** The progress after a step, from the progress [pp] the handler leaves:
    the effect resets it when the step ends a generation. *)
Lemma progressing_quiet (w w' : World) :
  isGenerating (state w') = isGenerating (state w) ->
  interval w' = interval w ->
  (clock w <= clock w')%Z ->
  (isGenerating (state w) = true -> forall startTime,
      interval w = Some startTime -> (startTime <= clock w)%Z ->
      0 <= progressPercent (state w') /\
      progressPercent (state w') <= rawPercent (clock w' - startTime)) ->
  (isGenerating (state w) = false -> progressPercent (state w') = 0) ->
  progressing w -> progressing (effects (state w) w').
Proof.
  unfold progressing. intros HG HI HC Hgen Hidle H.
  rewrite effects_isGenerating, effects_progressPercent.
  rewrite effects_interval, effects_clock, HG, HI, Bool.eqb_reflx. cbn [negb andb].
  destruct (isGenerating (state w)) eqn:G.
  - destruct H as (s & Hs & Hle & _). exists s.
    destruct (Hgen eq_refl s Hs Hle). repeat split; auto. lia.
  - split; [apply H | now apply Hidle].
Qed.

Lemma progressing_step (w : World) (e : N * Event) :
  tracking w -> progressing w -> progressing (step w e).
Proof.
  destruct e as [dt ev]. intros T H. unfold step.
  set (w1 := advance dt w).
  assert (Hquiet :
    isGenerating (state (handle w1 ev)) = isGenerating (state w) ->
    progressPercent (state (handle w1 ev)) = progressPercent (state w) \/
    (exists startTime, interval w = Some startTime /\
       progressPercent (state (handle w1 ev))
       = rawPercent (clock w1 - startTime)) ->
    progressing (effects (state w) (handle w1 ev))).
  { intros HG Hpp.
    pose proof (handle_clock w1 ev) as Hc. cbn [w1 advance clock] in Hc.
    apply progressing_quiet; auto.
    - rewrite handle_interval. reflexivity.
    - lia.
    - intros G s Hs Hle. unfold progressing in H. rewrite G in H.
      destruct H as (s' & Hs' & _ & H0 & H1).
      assert (s' = s) by congruence. subst s'.
      destruct Hpp as [->|(s' & Hs'' & ->)].
      + split; [exact H0|].
        eapply Qle_trans; [exact H1 | apply rawPercent_mono; lia].
      + assert (s' = s) by congruence. subst s'. cbn [w1 advance clock]. split.
        * apply rawPercent_nonneg. lia.
        * apply rawPercent_mono. lia.
    - intros G. unfold progressing in H. rewrite G in H. destruct H as [Hi H0].
      destruct Hpp as [->|(s' & Hs'' & _)]; [exact H0 | congruence]. }
  pose proof (handle_isGenerating w1 ev) as HG.
  pose proof (handle_progressPercent w1 ev) as HP.
  cbn [w1 advance state inFlight interval] in HG, HP. fold w1 in HG, HP.
  destruct ev; try (apply Hquiet; [exact HG | left; exact HP]).
  - (* ClickGenerate *)
    destruct (generateDisabled (state w)) eqn:D;
      [apply Hquiet; [exact HG | left; exact HP]|].
    destruct (isGenerating (state w)) eqn:G;
      [now rewrite generating_disabled in D|].
    unfold progressing in H |- *. rewrite G in H. destruct H as [_ H0].
    rewrite effects_isGenerating, effects_progressPercent, effects_interval,
      effects_clock, HG, HP, G, H0.
    cbn [Bool.eqb negb andb].
    exists (clock (handle w1 ClickGenerate)).
    rewrite Z.sub_diag. repeat split; try lia; discriminate.
  - (* Settle *)
    destruct (nth_error (inFlight w) n) eqn:P.
    + destruct (isGenerating (state w)) eqn:G.
      * unfold progressing.
        rewrite effects_isGenerating, effects_progressPercent,
          effects_interval, HG, G.
        cbn [Bool.eqb negb andb]. split; reflexivity.
      * unfold tracking in T. rewrite G in T.
        destruct (inFlight w); [destruct n|]; discriminate.
    + apply Hquiet; [exact HG | left]. destruct outcome; exact HP.
  - (* Tick *)
    destruct (interval w) as [s|] eqn:I.
    + apply Hquiet; [exact HG | right; eauto].
    + apply Hquiet; [exact HG | left; exact HP].
Qed.

Lemma consistent_mount saved now : consistent (mount saved now).
Proof.
  split; [apply tracking_mount | split; [apply progressing_mount | reflexivity]].
Qed.

Lemma consistent_step (w : World) (e : N * Event) :
  consistent w -> consistent (step w e).
Proof.
  intros (T & P & _). split; [now apply tracking_step|].
  split; [now apply progressing_step|].
  destruct e as [dt ev]. unfold step. now rewrite effects_history.
Qed.

Lemma consistent_run saved now events : consistent (run (mount saved now) events).
Proof. apply run_invariant; [apply consistent_step | apply consistent_mount]. Qed.

Lemma step_history_length (w : World) (e : N * Event) :
  (List.length (history (state w)) <= 20)%nat ->
  (List.length (history (state (step w e))) <= 20)%nat.
Proof.
  destruct e as [dt ev]. intros H. unfold step. rewrite effects_history.
  now apply handle_history_length.
Qed.

(** ** One request at a time *)

(** The handler itself does not look at [isGenerating]: what keeps a
    second request from being dispatched is the [disabled] attribute of
    the button, the only place the handler is called from. *)
Lemma handleGenerate_gated_by_button (state : ExtendedAppState) (image : string) :
  isGenerating state = true ->
  originalImage state = Some image -> image <> "" ->
  handleGenerate state
  = Some (beginGenerating, {| call_image := image; call_style := style state |}) /\
  generateDisabled state = true /\
  clickGenerate state = None.
Proof.
  intros G H Hne. split; [now apply handleGenerate_dispatches|].
  split; [now apply generating_disabled|].
  apply clickGenerate_disabled. now apply generating_disabled.
Qed.

(** C2. While [isGenerating] is true the generate button is disabled, so
    asking for a generation does nothing: every field of the state and the
    list of pending calls stay as they were. In every state the
    application reaches, at most one call to the client is pending. *)
Theorem one_generation_in_flight (w : World) (dt : N)
    (saved : SavedHistory) (now : Z) (events : list (N * Event)) :
  (isGenerating (state w) = true ->
   clickGenerate (state w) = None /\
   state (step w (dt, ClickGenerate)) = state w /\
   inFlight (step w (dt, ClickGenerate)) = inFlight w) /\
  (List.length (inFlight (run (mount saved now) events)) <= 1)%nat /\
  (List.length (inFlight (run (mount saved now) events)) = 1%nat <->
   isGenerating (state (run (mount saved now) events)) = true).
Proof.
  split; [|split].
  - intros G. pose proof (clickGenerate_disabled _ (generating_disabled _ G)) as Hc.
    split; [exact Hc|].
    unfold step, handle. cbn [advance state]. rewrite Hc.
    cbn. rewrite Bool.eqb_reflx. split; reflexivity.
  - destruct (consistent_run saved now events) as (T & _). unfold tracking in T.
    rewrite T. destruct (isGenerating _); lia.
  - destruct (consistent_run saved now events) as (T & _). unfold tracking in T.
    rewrite T. destruct (isGenerating _); split; congruence.
Qed.

(** ** The cap on the history *)


Lemma mount_history (saved : SavedHistory) (now : Z) :
  history (state (mount saved now)) =
  match saved with
  | Parsed items => items
  | Absent | Unparsable => []
  end.
Proof. destruct saved; reflexivity. Qed.

Lemma run_history_length (w : World) (events : list (N * Event)) :
  (List.length (history (state w)) <= 20)%nat ->
  (List.length (history (state (run w events))) <= 20)%nat.
Proof.
  apply (run_invariant (fun w => (List.length (history (state w)) <= 20)%nat)).
  apply step_history_length.
Qed.


(** ** The progress estimate *)

Lemma step_progress_monotone (w : World) (e : N * Event) :
  consistent w ->
  isGenerating (state w) = true ->
  isGenerating (state (step w e)) = true ->
  progressPercent (state w) <= progressPercent (state (step w e)).
Proof.
  intros (T & P & _) G G'. destruct e as [dt ev]. unfold step in *.
  rewrite effects_isGenerating in G'.
  rewrite effects_progressPercent, G, G'. cbn [Bool.eqb negb andb].
  rewrite handle_progressPercent. cbn [advance state inFlight interval clock].
  rewrite handle_isGenerating in G'. cbn [advance state inFlight] in G'.
  unfold progressing in P. rewrite G in P.
  destruct P as (s & Hs & Hle & H0 & H1).
  destruct ev; try apply Qle_refl.
  - destruct outcome; [|apply Qle_refl].
    destruct (nth_error (inFlight w) n); [discriminate | apply Qle_refl].
  - rewrite Hs. eapply Qle_trans; [exact H1 | apply rawPercent_mono; lia].
Qed.

(** C5. Time is read off a clock that does not run backwards. In every
    state the application reaches: while [isGenerating] is true the
    progress is at most 98, so below 100, and no event that leaves
    [isGenerating] true lowers it; while [isGenerating] is false it is 0.
    A tick writes the clamped fraction of the elapsed time, so a later
    tick never writes less than an earlier one. The updater of a
    successful generation writes exactly 100 together with
    [isGenerating = false]; the effect that follows a settled generation,
    fulfilled or rejected, resets the progress to 0. *)
Theorem progress_while_generating (saved : SavedHistory) (now : Z)
    (events : list (N * Event)) (e : N * Event) :
  let w := run (mount saved now) events in
  (isGenerating (state w) = true ->
   progressPercent (state w) <= 98 /\ progressPercent (state w) < 100) /\
  (isGenerating (state w) = true -> isGenerating (state (step w e)) = true ->
   progressPercent (state w) <= progressPercent (state (step w e))) /\
  (isGenerating (state w) = false -> progressPercent (state w) = 0) /\
  (forall startTime t1 t2 prev1 prev2, (t1 <= t2)%Z ->
      progressPercent (tick startTime t1 prev1)
      <= progressPercent (tick startTime t2 prev2)) /\
  (forall startTime t prev, progressPercent (tick startTime t prev) <= 98) /\
  (forall call result idNow timestampNow prev,
      progressPercent (generateSucceeded call result idNow timestampNow prev) = 100 /\
      isGenerating (generateSucceeded call result idNow timestampNow prev) = false) /\
  (forall dt n result outcome lag call,
      nth_error (inFlight w) n = Some call ->
      progressPercent
        (state (handle (advance dt w) (Settle n (Fulfilled result) lag))) = 100 /\
      isGenerating (state (step w (dt, Settle n outcome lag))) = false /\
      progressPercent (state (step w (dt, Settle n outcome lag))) = 0).
Proof.
  intros w. pose proof (consistent_run saved now events) as C. fold w in C.
  destruct C as (T & P & L).
  split; [|split; [|split; [|split; [|split; [|split]]]]].
  - intros G. unfold progressing in P. rewrite G in P.
    destruct P as (s & _ & _ & _ & H1).
    assert (H98 : progressPercent (state w) <= 98).
    { eapply Qle_trans; [exact H1 | apply rawPercent_le_98]. }
    split; [exact H98|]. eapply Qle_lt_trans; [exact H98 | reflexivity].
  - apply step_progress_monotone. repeat split; assumption.
  - intros G. unfold progressing in P. rewrite G in P. apply P.
  - intros startTime t1 t2 prev1 prev2 H. cbn. apply rawPercent_mono. lia.
  - intros startTime t prev. cbn. apply rawPercent_le_98.
  - intros. split; reflexivity.
  - intros dt n result outcome lag call Hn.
    assert (G : isGenerating (state w) = true).
    { unfold tracking in T. destruct (isGenerating (state w)); [reflexivity|].
      destruct (inFlight w); [destruct n|]; discriminate. }
    split; [|split].
    + rewrite handle_progressPercent. cbn [advance inFlight]. now rewrite Hn.
    + unfold step. rewrite effects_isGenerating, handle_isGenerating.
      cbn [advance inFlight]. now rewrite Hn.
    + unfold step. rewrite effects_progressPercent, handle_isGenerating.
      cbn [advance inFlight state]. rewrite Hn. now rewrite G.
Qed.

(** ** The sample runs *)

Lemma one_generation_in_flight_witness :
  isGenerating (state sample_generating) = true /\
  state (step sample_generating (10%N, ClickGenerate)) = state sample_generating /\
  List.length (inFlight sample_generating) = 1%nat.
Proof.
  destruct (one_generation_in_flight sample_generating 10%N Absent sample_start
              sample_events) as (Hclick & _ & Hone).
  split; [reflexivity|]. split.
  - apply Hclick. reflexivity.
  - apply Hone. reflexivity.
Defined.


(** C6 as stated fails where two entries carry one id: both go. Such a
    history is loaded from the store, and it also arises from nothing
    stored when two generations settle in the same millisecond; the
    delete button of the first card then empties the list of two. *)
Lemma delete_removes_both_entries_of_an_id :
  List.length sample_twins = 3%nat /\
  List.length (deleteHistoryItem "1700000000007" sample_twins) = 1%nat /\
  deleteHistoryItem "1700000000007" sample_twins = [sample_item 1700000000005] /\
  List.length
    (history (state (step (mount (Parsed sample_twins) sample_start)
                       (10%N, ClickDelete 0)))) = 1%nat /\
  map HistoryItem.id
    (history (state (run (mount Absent sample_start) sample_same_millisecond)))
  = ["1700000009940"; "1700000009940"]%string /\
  history (state (step (run (mount Absent sample_start) sample_same_millisecond)
                    (500%N, ClickDelete 0))) = [].
Proof. repeat split; vm_compute; reflexivity. Qed.


Lemma progress_while_generating_witness :
  isGenerating (state sample_generating) = true /\
  progressPercent (state sample_generating) == 10 /\
  progressPercent (state sample_generating)
  <= progressPercent (state (step sample_generating (1500%N, Tick))).
Proof.
  split; [reflexivity|]. split; [reflexivity|].
  exact (proj1 (proj2 (progress_while_generating Absent sample_start
                         sample_events (1500%N, Tick)))
           eq_refl eq_refl).
Defined.

(** The runs end where the specification says. *)
Example sample_append_evicts_oldest :
  map HistoryItem.timestamp
    (history (state (run (mount (Parsed (sample_history 20)) sample_start)
                       sample_append)))
  = (sample_start + 13301)%Z
    :: map HistoryItem.timestamp (removelast (sample_history 20)).
Proof. vm_compute. reflexivity. Qed.

Example sample_append_resets_progress :
  progressPercent
    (state (run (mount (Parsed (sample_history 20)) sample_start) sample_append))
  = 0.
Proof. vm_compute. reflexivity. Qed.

Example sample_second_tick :
  progressPercent (state (step sample_generating (1500%N, Tick))) == 20 /\
  progressStep (state (step sample_generating (1500%N, Tick))) = 1%Z.
Proof. split; vm_compute; reflexivity. Qed.

Example sample_late_tick :
  progressPercent (state (step sample_generating (60000%N, Tick))) == 98 /\
  progressStep (state (step sample_generating (60000%N, Tick))) = 6%Z.
Proof. split; vm_compute; reflexivity. Qed.

(** ** The pieces on small inputs *)

Example split_data_url :
  split "," "data:image/jpeg;base64,/9j/4AAQ" = ["data:image/jpeg;base64"; "/9j/4AAQ"]
  /\ split ";" "a;;b" = ["a"; ""; "b"]
  /\ split ";" "" = [""].
Proof. repeat split; reflexivity. Qed.

Example request_for_jpeg :
  let request :=
    GeminiService.request_for (fun _ => "prompt") "system" " suffix"
      "data:image/jpeg;base64,/9j/4AAQ" CLAY in
  GeminiService.request_data request = Some "/9j/4AAQ" /\
  GeminiService.request_mimeType request = Some "image/jpeg".
Proof. split; reflexivity. Qed.

Example generateAvatar_without_key :
  GeminiService.generateAvatar (fun _ => "prompt") "system" " suffix"
    (fun _ => Fulfilled sample_response) None "data:image/jpeg;base64,/9j/4AAQ" PIXAR
  = Rejected (Error "API Key is missing. Please ensure process.env.API_KEY is configured.").
Proof. reflexivity. Qed.

Example generateAvatar_without_image_part :
  GeminiService.generateAvatar (fun _ => "prompt") "system" " suffix"
    (fun _ => Fulfilled {| GeminiService.candidates := Some [] |})
    (Some "key") "data:image/jpeg;base64,/9j/4AAQ" PIXAR
  = Rejected (Error "The model did not return an image part in the response.").
Proof. reflexivity. Qed.

Example availableStyles_PIXAR :
  availableStyles PIXAR = [VECTOR; ANIME; SKETCH; COMIC; CYBERPUNK; GOTHIC; CLAY].
Proof. reflexivity. Qed.

Example randomStyle_samples :
  randomStyle PIXAR {| significand := 0; scale := 53 |} = Some VECTOR /\
  randomStyle PIXAR sample_half = Some COMIC /\
  randomStyle PIXAR {| significand := 2 ^ 53 - 1; scale := 53 |} = Some CLAY /\
  randomStyle CLAY {| significand := 2 ^ 53 - 1; scale := 53 |} = Some GOTHIC /\
  randomStyle PIXAR {| significand := 1; scale := 1074 |} = Some VECTOR /\
  randomStyle PIXAR {| significand := 2 ^ 53; scale := 53 |} = None.
Proof. repeat split; reflexivity. Qed.

(** With two entries under one id, both go: the uniqueness of ids is what
    makes a deletion remove one entry. *)
Example deleteHistoryItem_repeated_id :
  deleteHistoryItem "7" [sample_item 7; sample_item 8; sample_item 7]
  = [sample_item 8].
Proof. reflexivity. Qed.

Example sample_generating_state :
  isGenerating (state sample_generating) = true /\
  generatedAvatar (state sample_generating) = None /\
  inFlight sample_generating
  = [ {| call_image := "data:image/jpeg;base64,/9j/4AAQ"; call_style := PIXAR |} ] /\
  interval sample_generating = Some (sample_start + 940)%Z /\
  progressStep (state sample_generating) = 0%Z.
Proof. repeat split; reflexivity. Qed.

(* ===================================================================== *)
(** * Further properties of the code                                     *)
(* ===================================================================== *)

(** ** generateAvatar: how it fails and which part it returns *)

(** X1. Every rejection of [generateAvatar] carries a non-empty message, and
    the [catch] branch of [handleGenerate] shows that very message. *)
Theorem generateAvatar_rejection_has_message
    (stylePrompts : AvatarStyle -> string)
    (systemInstruction promptSuffix : string)
    (generateContent : GeminiService.GenerateContentRequest ->
                       Settled GeminiService.GenerateContentResponse)
    (apiKey : option string) (base64Image : string) (style : AvatarStyle)
    (err : JsError) (prev : ExtendedAppState) :
  GeminiService.generateAvatar stylePrompts systemInstruction promptSuffix
    generateContent apiKey base64Image style = Rejected err ->
  exists m,
    message err = Some m /\ m <> "" /\
    error (generateFailed err prev) = Some m /\
    isGenerating (generateFailed err prev) = false.
Proof.
  unfold GeminiService.generateAvatar.
  destruct (negb (truthy apiKey)).
  - intros H. injection H as <-. eexists. repeat split. discriminate.
  - destruct (generateContent _) as [response|e].
    + destruct (String.eqb_spec (GeminiService.imageUrl_of response) "");
        [|discriminate].
      intros H. injection H as <-. eexists. repeat split. discriminate.
    + intros H. injection H as <-.
      assert (Hne : or_else (message e) "Failed to generate avatar. Please try again." <> "")
        by (apply or_else_nonempty; discriminate).
      eexists. split; [reflexivity|]. split; [exact Hne|].
      split; [|reflexivity]. cbn [generateFailed error Error message].
      now rewrite or_else_message.
Qed.

(** X2. Without an API key nothing is asked of the model: whatever it would
    answer, the rejection is the same, and the page shows its message
    with [isGenerating] back to false. *)
Theorem generateAvatar_without_api_key
    (stylePrompts : AvatarStyle -> string)
    (systemInstruction promptSuffix : string)
    (generateContent : GeminiService.GenerateContentRequest ->
                       Settled GeminiService.GenerateContentResponse)
    (apiKey : option string) (base64Image : string) (style : AvatarStyle)
    (call : GenerateCall) (idNow timestampNow : Z) (prev : ExtendedAppState) :
  apiKey = None \/ apiKey = Some "" ->
  let outcome :=
    GeminiService.generateAvatar stylePrompts systemInstruction promptSuffix
      generateContent apiKey base64Image style in
  outcome
  = Rejected (Error "API Key is missing. Please ensure process.env.API_KEY is configured.") /\
  error (handleGenerate_settled call outcome idNow timestampNow prev)
  = Some "API Key is missing. Please ensure process.env.API_KEY is configured." /\
  isGenerating (handleGenerate_settled call outcome idNow timestampNow prev) = false /\
  history (handleGenerate_settled call outcome idNow timestampNow prev) = history prev.
Proof.
  intros [-> | ->]; cbn; repeat split.
Qed.

Lemma scan_parts_first (texts rest : list GeminiService.Part)
    (p : GeminiService.Part) (d : GeminiService.InlineData) :
  Forall (fun q => GeminiService.inlineData q = None) texts ->
  GeminiService.inlineData p = Some d ->
  GeminiService.scan_parts (texts ++ p :: rest)
  = ("data:image/png;base64," ++ interpolate (GeminiService.data d))%string.
Proof.
  intros Ht Hp. induction Ht as [|q texts Hq _ IH]; cbn.
  - now rewrite Hp.
  - now rewrite Hq.
Qed.

Lemma scan_parts_none (ps : list GeminiService.Part) :
  Forall (fun q => GeminiService.inlineData q = None) ps ->
  GeminiService.scan_parts ps = "".
Proof.
  intros H. induction H as [|q ps Hq _ IH]; cbn; [reflexivity | now rewrite Hq].
Qed.

(** X3. The loop stops at the first part that has [inlineData]: with a key
    and an answer whose first candidate holds such a part, the avatar is
    built from that part, whatever parts and candidates come after it;
    a part without [data] gives the text [undefined] after the prefix. *)
Theorem generateAvatar_takes_first_image_part
    (stylePrompts : AvatarStyle -> string)
    (systemInstruction promptSuffix : string)
    (generateContent : GeminiService.GenerateContentRequest ->
                       Settled GeminiService.GenerateContentResponse)
    (apiKey base64Image : string) (style : AvatarStyle)
    (candidate : GeminiService.Candidate)
    (others : list GeminiService.Candidate)
    (texts rest : list GeminiService.Part) (p : GeminiService.Part)
    (d : GeminiService.InlineData) :
  apiKey <> "" ->
  generateContent
    (GeminiService.request_for stylePrompts systemInstruction promptSuffix
       base64Image style)
  = Fulfilled {| GeminiService.candidates := Some (candidate :: others) |} ->
  GeminiService.content candidate
  = Some {| GeminiService.parts := Some (texts ++ p :: rest) |} ->
  Forall (fun q => GeminiService.inlineData q = None) texts ->
  GeminiService.inlineData p = Some d ->
  GeminiService.generateAvatar stylePrompts systemInstruction promptSuffix
    generateContent (Some apiKey) base64Image style
  = Fulfilled
      ("data:image/png;base64," ++ interpolate (GeminiService.data d))%string.
Proof.
  intros Hkey Hgc Hc Ht Hp. unfold GeminiService.generateAvatar.
  apply truthy_Some in Hkey. rewrite Hkey. cbn [negb]. rewrite Hgc.
  unfold GeminiService.imageUrl_of, GeminiService.first_candidate_parts.
  cbn [GeminiService.candidates]. rewrite Hc. cbn [GeminiService.parts].
  rewrite (scan_parts_first texts rest p d Ht Hp). reflexivity.
Qed.

(** X4. Only the first candidate is looked at: when it has no part with
    [inlineData] (or no content, or no parts, or there is no candidate),
    the call is rejected for want of an image, even if a later candidate
    holds one. *)
Theorem generateAvatar_needs_image_in_first_candidate
    (stylePrompts : AvatarStyle -> string)
    (systemInstruction promptSuffix : string)
    (generateContent : GeminiService.GenerateContentRequest ->
                       Settled GeminiService.GenerateContentResponse)
    (apiKey base64Image : string) (style : AvatarStyle)
    (response : GeminiService.GenerateContentResponse) :
  apiKey <> "" ->
  generateContent
    (GeminiService.request_for stylePrompts systemInstruction promptSuffix
       base64Image style)
  = Fulfilled response ->
  match GeminiService.first_candidate_parts response with
  | Some ps => Forall (fun q => GeminiService.inlineData q = None) ps
  | None => True
  end ->
  GeminiService.generateAvatar stylePrompts systemInstruction promptSuffix
    generateContent (Some apiKey) base64Image style
  = Rejected (Error "The model did not return an image part in the response.").
Proof.
  intros Hkey Hgc Hps. unfold GeminiService.generateAvatar.
  apply truthy_Some in Hkey. rewrite Hkey. cbn [negb]. rewrite Hgc.
  unfold GeminiService.imageUrl_of.
  destruct (GeminiService.first_candidate_parts response) as [ps|].
  - now rewrite (scan_parts_none ps Hps).
  - reflexivity.
Qed.

(** ** The request: taking a data URL apart *)

Lemma append_assoc (a b c : string) :
  ((a ++ b) ++ c)%string = (a ++ (b ++ c))%string.
Proof. induction a as [|x a IH]; cbn; [reflexivity | now rewrite IH]. Qed.


Lemma split_no_separator (c : ascii) (s : string) :
  ~ In c (list_ascii_of_string s) -> split c s = [s].
Proof.
  induction s as [|a s IH]; cbn; intros H; [reflexivity|].
  destruct (Ascii.eqb_spec a c) as [E|E]; [exfalso; auto|].
  rewrite IH; [reflexivity | tauto].
Qed.

Lemma split_at_separator (c : ascii) (s1 s2 : string) :
  ~ In c (list_ascii_of_string s1) ->
  split c (s1 ++ String c s2)%string = s1 :: split c s2.
Proof.
  induction s1 as [|a s1 IH]; cbn; intros H.
  - now rewrite Ascii.eqb_refl.
  - destruct (Ascii.eqb_spec a c) as [E|E]; [exfalso; auto|].
    rewrite IH; [reflexivity | tauto].
Qed.

Lemma In_append (c : ascii) (s1 s2 : string) :
  In c (list_ascii_of_string (s1 ++ s2)%string) <->
  In c (list_ascii_of_string s1) \/ In c (list_ascii_of_string s2).
Proof.
  induction s1 as [|a s1 IH]; cbn; [tauto|]. rewrite IH. tauto.
Qed.


(** X5. A data URL [data:<type>;base64,<payload>] is taken apart as meant:
    the request carries the payload as [data] and the type as [mimeType],
    provided the type holds none of the three separators and the payload
    no comma (which base64 text never does). *)
Theorem request_for_data_url
    (stylePrompts : AvatarStyle -> string)
    (systemInstruction promptSuffix : string)
    (mediaType payload : string) (style : AvatarStyle) :
  ~ In ","%char (list_ascii_of_string mediaType) ->
  ~ In ";"%char (list_ascii_of_string mediaType) ->
  ~ In ":"%char (list_ascii_of_string mediaType) ->
  ~ In ","%char (list_ascii_of_string payload) ->
  let request :=
    GeminiService.request_for stylePrompts systemInstruction promptSuffix
      ("data:" ++ mediaType ++ ";base64," ++ payload)%string style in
  GeminiService.request_data request = Some payload /\
  GeminiService.request_mimeType request = Some mediaType /\
  GeminiService.request_text request = (stylePrompts style ++ promptSuffix)%string.
Proof.
  intros Hc Hs Hk Hp. cbn zeta. unfold GeminiService.request_for.
  cbn [GeminiService.request_data GeminiService.request_mimeType
       GeminiService.request_text].
  split; [|split; [|reflexivity]].
  - replace ("data:" ++ mediaType ++ ";base64," ++ payload)%string
      with (("data:" ++ mediaType ++ ";base64") ++ String "," payload)%string
      by (rewrite !append_assoc; reflexivity).
    rewrite split_at_separator.
    + rewrite (split_no_separator _ payload Hp). reflexivity.
    + rewrite !In_append. cbn.
      intros [H|[H|H]]; [|tauto|];
        repeat (destruct H as [H|H]; [discriminate H|]); exact H.
  - replace ("data:" ++ mediaType ++ ";base64," ++ payload)%string
      with (("data:" ++ mediaType) ++ String ";" ("base64," ++ payload))%string
      by (rewrite !append_assoc; reflexivity).
    rewrite split_at_separator.
    + cbn [GeminiService.item nth_error].
      change ("data:" ++ mediaType)%string
        with ("data" ++ String ":" mediaType)%string.
      rewrite split_at_separator.
      * now rewrite (split_no_separator _ mediaType Hk).
      * cbn. intros H.
        repeat (destruct H as [H|H]; [discriminate H|]); exact H.
    + rewrite In_append. cbn. intros [H|H]; [|tauto].
      repeat (destruct H as [H|H]; [discriminate H|]); exact H.
Qed.


(** ** Names made from the clock *)

Lemma to_int_not_nil (n : Z) :
  Z.to_int n <> Decimal.Pos Decimal.Nil /\ Z.to_int n <> Decimal.Neg Decimal.Nil.
Proof.
  split; intros H; pose proof (f_equal Z.of_int H) as H';
    rewrite DecimalZ.of_to in H'; cbn in H'; subst n; discriminate H.
Qed.

Lemma toString_inj (a b : Z) : toString a = toString b -> a = b.
Proof.
  unfold toString. intros H.
  destruct (to_int_not_nil a) as [Ha1 Ha2], (to_int_not_nil b) as [Hb1 Hb2].
  apply (f_equal NilZero.int_of_string) in H.
  rewrite !NilZero.isi in H by assumption.
  injection H as H. now apply DecimalZ.to_int_inj.
Qed.




(** ** Runs under a condition on the events *)

Lemma run_invariant_when (ok : N * Event -> bool) (Inv : World -> Prop) :
  (forall w e, ok e = true -> Inv w -> Inv (step w e)) ->
  forall events w, forallb ok events = true -> Inv w -> Inv (run w events).
Proof.
  intros Hstep events. induction events as [|e events IH]; intros w Hok H.
  - exact H.
  - cbn in Hok. apply andb_prop in Hok as [He Hok].
    apply IH; [exact Hok | now apply Hstep].
Qed.

Lemma run_app (w : World) (a b : list (N * Event)) :
  run w (a ++ b) = run (run w a) b.
Proof. apply fold_left_app. Qed.

(** ** What is stored *)

Lemma stored_within_cap (stored : SavedHistory) (now : Z) (events : list (N * Event)) :
  (savedLength stored <= 20)%nat ->
  (List.length (localStorage (run (mount stored now) events)) <= 20)%nat.
Proof.
  intros H. destruct (consistent_run stored now events) as (_ & _ & ->).
  apply run_history_length. rewrite mount_history. now destruct stored.
Qed.

Lemma reopen_within_cap (stored : SavedHistory) (sessions : list (Z * list (N * Event))) :
  (savedLength stored <= 20)%nat ->
  (savedLength (reopen stored sessions) <= 20)%nat.
Proof.
  revert stored. induction sessions as [|[now events] rest IH]; intros stored H.
  - exact H.
  - cbn [reopen]. apply IH. cbn [savedLength]. now apply stored_within_cap.
Qed.

(** X9. On a browser whose store starts empty or unreadable, or with at most
    20 items, the cap holds across reloads: after any number of sessions,
    each with any events, the store holds at most 20 items, and so does
    the history in every state of the next session. *)
Theorem history_within_cap_across_reloads (stored : SavedHistory)
    (sessions : list (Z * list (N * Event)))
    (now : Z) (events : list (N * Event)) :
  (savedLength stored <= 20)%nat ->
  (savedLength (reopen stored sessions) <= 20)%nat /\
  (List.length
     (history (state (run (mount (reopen stored sessions) now) events)))
   <= 20)%nat.
Proof.
  intros H. pose proof (reopen_within_cap stored sessions H) as Hs.
  split; [exact Hs|].
  apply run_history_length. rewrite mount_history.
  now destruct (reopen stored sessions).
Qed.

(** ** What the events leave alone *)

(** X10. The history after an event is the history before it, unless the event
    is a fulfilled generation (the new item in front, cut at 20), the
    delete button of a card (that card's id filtered out) or a confirmed
    clear. *)
Theorem history_changes_only_by (w : World) (dt : N) (ev : Event) :
  let h := history (state w) in
  let h' := history (state (step w (dt, ev))) in
  h' = h \/
  (exists n call result lag,
      ev = Settle n (Fulfilled result) lag /\
      nth_error (inFlight w) n = Some call /\
      h' = slice0 HISTORY_CAP
             (newHistoryItem call result (clock w + Z.of_N dt)
                (clock w + Z.of_N dt + Z.of_N lag) :: h)) \/
  (exists n item,
      ev = ClickDelete n /\ nth_error h n = Some item /\
      h' = deleteHistoryItem (HistoryItem.id item) h) \/
  (ev = ClickClearHistory true /\ h' = []).
Proof.
  cbn zeta. unfold step. rewrite effects_history.
  set (w1 := advance dt w).
  change (history (state w)) with (history (state w1)).
  change (inFlight w) with (inFlight w1).
  change (clock w + Z.of_N dt)%Z with (clock w1).
  clearbody w1. by_event ev w1; cbn -[slice0 deleteHistoryItem]; eauto 12.
Qed.

(** X11. Once no generation is running the interval is gone: a tick that still
    arrives changes nothing. *)
Theorem idle_tick_ignored (saved : SavedHistory) (now : Z)
    (events : list (N * Event)) (dt : N) :
  let w := run (mount saved now) events in
  isGenerating (state w) = false ->
  interval w = None /\ state (step w (dt, Tick)) = state w.
Proof.
  cbn zeta. intros G.
  destruct (consistent_run saved now events) as (_ & P & _).
  unfold progressing in P. rewrite G in P. destruct P as [I _].
  split; [exact I|].
  unfold step. cbn [handle advance interval]. rewrite I.
  cbn. rewrite Bool.eqb_reflx. reflexivity.
Qed.

(** ** The avatar while a generation runs *)

Lemma step_avatar_cleared (w : World) (e : N * Event) :
  isCardClick (snd e) = false ->
  (isGenerating (state w) = true -> generatedAvatar (state w) = None) ->
  isGenerating (state (step w e)) = true ->
  generatedAvatar (state (step w e)) = None.
Proof.
  destruct e as [dt ev]. cbn [snd]. intros Hev H. unfold step.
  rewrite effects_isGenerating.
  assert (E : forall b x, isGenerating (state x) = true ->
              generatedAvatar (state (effects b x)) = generatedAvatar (state x)).
  { intros b x G. cbn. rewrite G, andb_false_r. reflexivity. }
  intros G. rewrite (E _ _ G). revert G.
  set (w1 := advance dt w).
  change (state w) with (state w1) in H. clearbody w1.
  by_event ev w1; cbn; try discriminate; auto.
  all: try (intros; apply H; congruence).
Qed.

(** X12. The avatar is cleared when a generation starts, and as long as no
    card of the history is clicked it stays cleared until the generation
    settles: in every state reached without such a click, [isGenerating]
    true means [generatedAvatar] null, and the save button is not shown.
    (A click on a card puts that card's avatar in the state even while a
    generation runs.) *)
Theorem avatar_cleared_while_generating (saved : SavedHistory) (now : Z)
    (events : list (N * Event)) :
  noCardClick events = true ->
  let w := run (mount saved now) events in
  isGenerating (state w) = true ->
  generatedAvatar (state w) = None /\ downloadShown (state w) = false.
Proof.
  intros Hev. cbn zeta.
  assert (H : isGenerating (state (run (mount saved now) events)) = true ->
              generatedAvatar (state (run (mount saved now) events)) = None).
  { apply (run_invariant_when
             (fun e => negb (isCardClick (snd e)))
             (fun w => isGenerating (state w) = true ->
                       generatedAvatar (state w) = None)).
    - intros w e He Hw. apply step_avatar_cleared; [|exact Hw].
      now apply negb_true_iff.
    - exact Hev.
    - destruct saved; discriminate. }
  intros G. split; [now apply H|].
  unfold downloadShown. rewrite G. apply andb_false_r.
Qed.

(** ** The status message *)

Lemma stepIndex_bounds (percent : Q) :
  0 <= percent -> (0 <= stepIndex percent <= 6)%Z.
Proof.
  intros H. unfold stepIndex.
  change (Z.of_nat (List.length PROGRESS_MESSAGES)) with 7%Z. cbn zeta.
  assert (0 <= Qfloor (percent / 100 * inject_Z 7))%Z.
  { rewrite <- (Qfloor_Z 0). apply Qfloor_resp_le.
    destruct percent as [p q]. unfold Qle, Qdiv, Qmult, Qinv, inject_Z in *.
    cbn in *. lia. }
  lia.
Qed.

Lemma stepIndex_mono (p q : Q) : p <= q -> (stepIndex p <= stepIndex q)%Z.
Proof.
  intros H. unfold stepIndex. apply Z.min_le_compat_r, Qfloor_resp_le.
  destruct p as [a b], q as [c d].
  unfold Qle, Qdiv, Qmult, Qinv, inject_Z in *. cbn in *. nia.
Qed.

Lemma handle_progressStep (w : World) (e : Event) :
  progressStep (state (handle w e)) =
  match e with
  | Tick =>
      match interval w with
      | Some startTime => stepIndex (rawPercent (clock w - startTime))
      | None => progressStep (state w)
      end
  | _ => progressStep (state w)
  end.
Proof. by_event e w; cbn; first [reflexivity | assumption | congruence]. Qed.

Lemma step_progressStep (w : World) (e : N * Event) :
  consistent w ->
  (0 <= progressStep (state w) <= 6)%Z ->
  (0 <= progressStep (state (step w e)) <= 6)%Z.
Proof.
  destruct e as [dt ev]. intros (_ & P & _) H. unfold step.
  assert (E : forall b x,
             progressStep (state (effects b x)) = progressStep (state x) \/
             progressStep (state (effects b x)) = 0%Z).
  { intros b x. cbn. destruct (_ && _); auto. }
  destruct (E (state w) (handle (advance dt w) ev)) as [-> | ->]; [|lia].
  rewrite handle_progressStep. cbn [advance state interval clock].
  destruct ev; try exact H.
  destruct (interval w) as [s|] eqn:I; [|exact H].
  apply stepIndex_bounds, rawPercent_nonneg.
  unfold progressing in P. destruct (isGenerating (state w)).
  - destruct P as (s' & Hs' & Hle & _). assert (s' = s) by congruence. lia.
  - destruct P; congruence.
Qed.

(** X13. [PROGRESS_MESSAGES[state.progressStep]] is always one of the seven
    messages: in every state the application reaches the step is between
    0 and 6. The step computed from a percentage never goes down when the
    percentage goes up, and the last message is reached at 98. *)
Theorem progress_message_defined (saved : SavedHistory) (now : Z)
    (events : list (N * Event)) :
  let w := run (mount saved now) events in
  (0 <= progressStep (state w) <= 6)%Z /\
  (exists msg,
      nth_error PROGRESS_MESSAGES (Z.to_nat (progressStep (state w))) = Some msg) /\
  (forall p q, 0 <= p -> p <= q -> (0 <= stepIndex p <= stepIndex q)%Z) /\
  stepIndex 98 = 6%Z.
Proof.
  cbn zeta.
  assert (H : consistent (run (mount saved now) events) /\
              (0 <= progressStep (state (run (mount saved now) events)) <= 6)%Z).
  { apply (run_invariant
             (fun w => consistent w /\ (0 <= progressStep (state w) <= 6)%Z)).
    - intros w e [C B]. split; [now apply consistent_step | now apply step_progressStep].
    - split; [apply consistent_mount | destruct saved; cbn; lia]. }
  destruct H as [_ B]. split; [exact B|]. split.
  - destruct (nth_error PROGRESS_MESSAGES
                (Z.to_nat (progressStep (state (run (mount saved now) events)))))
      as [msg|] eqn:E; [eauto|].
    apply nth_error_None in E. cbn in E. lia.
  - split; [|reflexivity]. intros p q Hp Hpq. split.
    + now apply stepIndex_bounds.
    + now apply stepIndex_mono.
Qed.

(** ** Uploading *)

(** X14. An image file that is chosen changes nothing until it has been read;
    when its read ends the photograph is in place, the error and the
    earlier avatar are gone, and the rest (a running generation, the
    style, the history) is as before. The generate button is then enabled
    exactly when the read gave something and no generation is running. *)
Theorem image_upload (w : World) (file : File) (dt dt' : N) :
  startsWith (type file) "image/" = true ->
  let w1 := step w (dt, ChooseFile (Some file)) in
  let w2 := step w1 (dt', LoadEnd (List.length (reading w))) in
  state w1 = state w /\
  reading w1 = reading w ++ [file] /\
  originalImage (state w2) = dataURL file /\
  error (state w2) = None /\
  generatedAvatar (state w2) = None /\
  isGenerating (state w2) = isGenerating (state w) /\
  style (state w2) = style (state w) /\
  history (state w2) = history (state w) /\
  reading w2 = reading w /\
  inFlight w2 = inFlight w /\
  generateDisabled (state w2)
  = negb (truthy (dataURL file)) || isGenerating (state w).
Proof.
  intros H. cbn zeta.
  assert (E1 : step w (dt, ChooseFile (Some file))
               = effects (state w) (startRead (Some file) (advance dt w))).
  { unfold step, handle, handleFileUpload, processFile. rewrite H. reflexivity. }
  rewrite E1.
  assert (N1 : forall (xs : list File), nth_error (xs ++ [file]) (List.length xs) = Some file).
  { intros xs. rewrite nth_error_app2 by lia. now rewrite Nat.sub_diag. }
  assert (W1 : forall (xs : list File), without (List.length xs) (xs ++ [file]) = xs).
  { induction xs as [|x xs IH]; cbn; [reflexivity | now rewrite IH]. }
  unfold step, handle.
  cbn [effects startRead advance state reading clock inFlight interval localStorage].
  rewrite N1, Bool.eqb_reflx. cbn. rewrite W1.
  repeat split; rewrite ?Bool.eqb_reflx; reflexivity.
Qed.

(** ** Ids and order in the history *)

Lemma step_clock (w : World) (e : N * Event) : (clock w <= clock (step w e))%Z.
Proof.
  destruct e as [dt ev]. unfold step. rewrite effects_clock.
  pose proof (handle_clock (advance dt w) ev) as H. cbn [advance clock] in H. lia.
Qed.

(** How one event changes the history, with what is needed of a new
    item. *)
Lemma step_history_shape (w : World) (dt : N) (ev : Event) :
  let h := history (state w) in
  let w' := step w (dt, ev) in
  history (state w') = h \/
  (exists item,
      isSettle ev = true /\
      history (state w') = slice0 HISTORY_CAP (item :: h) /\
      HistoryItem.id item = toString (clock w + Z.of_N dt) /\
      (clock w + Z.of_N dt <= HistoryItem.timestamp item)%Z /\
      HistoryItem.timestamp item = clock w') \/
  (exists id, history (state w') = deleteHistoryItem id h) \/
  history (state w') = [].
Proof.
  cbn zeta. unfold step. rewrite effects_history, effects_clock.
  set (w1 := advance dt w).
  change (history (state w)) with (history (state w1)).
  change (clock w + Z.of_N dt)%Z with (clock w1).
  clearbody w1. by_event ev w1; cbn -[slice0 deleteHistoryItem]; eauto 8.
  right. left. eexists. repeat split. cbn. lia.
Qed.

Lemma In_firstn {A : Type} (n : nat) (xs : list A) (x : A) :
  In x (firstn n xs) -> In x xs.
Proof.
  revert n. induction xs as [|y xs IH]; intros [|n]; cbn; try tauto.
  intros [H|H]; [now left | right; eauto].
Qed.

Lemma NoDup_map_firstn {A B : Type} (f : A -> B) (n : nat) (xs : list A) :
  NoDup (map f xs) -> NoDup (map f (firstn n xs)).
Proof.
  revert n. induction xs as [|x xs IH]; intros [|n] H; cbn; try constructor.
  - inversion H as [|? ? Hx Hxs]; subst. intros Hin. apply Hx.
    apply in_map_iff in Hin as (y & Hy & Hin). apply in_map_iff.
    exists y. split; [exact Hy|]. eapply In_firstn; eauto.
  - inversion H; subst. now apply IH.
Qed.

Lemma NoDup_map_filter {A B : Type} (f : A -> B) (p : A -> bool) (xs : list A) :
  NoDup (map f xs) -> NoDup (map f (filter p xs)).
Proof.
  induction xs as [|x xs IH]; intros H; cbn; [constructor|].
  inversion H as [|? ? Hx Hxs]; subst.
  destruct (p x); cbn; [constructor|]; auto.
  intros Hin. apply Hx. apply in_map_iff in Hin as (y & Hy & Hin).
  apply in_map_iff. exists y. split; [exact Hy|].
  now apply filter_In in Hin.
Qed.

Lemma Forall_firstn' {A : Type} (P : A -> Prop) (n : nat) (xs : list A) :
  Forall P xs -> Forall P (firstn n xs).
Proof.
  intros H. apply Forall_forall. intros x Hin.
  eapply Forall_forall; [exact H | eapply In_firstn; eauto].
Qed.

Lemma Forall_filter' {A : Type} (P : A -> Prop) (p : A -> bool) (xs : list A) :
  Forall P xs -> Forall P (filter p xs).
Proof.
  intros H. apply Forall_forall. intros x Hin. apply filter_In in Hin as [Hin _].
  eapply Forall_forall; eauto.
Qed.

Lemma StronglySorted_firstn {A : Type} (R : A -> A -> Prop) (n : nat) (xs : list A) :
  StronglySorted R xs -> StronglySorted R (firstn n xs).
Proof.
  intros H. revert n. induction H as [|x xs Hs IH Hx]; intros [|n]; cbn;
    try constructor; auto using Forall_firstn'.
Qed.

Lemma StronglySorted_filter {A : Type} (R : A -> A -> Prop) (p : A -> bool) (xs : list A) :
  StronglySorted R xs -> StronglySorted R (filter p xs).
Proof.
  intros H. induction H as [|x xs Hs IH Hx]; cbn; [constructor|].
  destruct (p x); [constructor|]; auto using Forall_filter'.
Qed.

Lemma idsFresh_step (w : World) (e : N * Event) :
  negb (isSettle (snd e)) || (0 <? fst e)%N = true ->
  idsFresh w -> idsFresh (step w e).
Proof.
  destruct e as [dt ev]. cbn [fst snd]. intros Hok [Hnd Hall].
  pose proof (step_clock w (dt, ev)) as Hc.
  assert (Hall' : Forall (fun item => exists t, HistoryItem.id item = toString t /\
                                       (t <= clock (step w (dt, ev)))%Z)
                    (history (state w))).
  { eapply Forall_impl; [|exact Hall]. intros item (t & Ht & Hle).
    exists t. split; [exact Ht | lia]. }
  unfold idsFresh.
  destruct (step_history_shape w dt ev)
    as [-> | [(item & Hs & -> & Hid & Hts & Hclock) | [(id & ->) | ->]]].
  - split; assumption.
  - rewrite Hs in Hok. cbn in Hok. apply N.ltb_lt in Hok.
    unfold slice0. split.
    + apply NoDup_map_firstn. cbn [map]. constructor; [|exact Hnd].
      intros Hin. apply in_map_iff in Hin as (other & Ho & Hin).
      rewrite Forall_forall in Hall. destruct (Hall other Hin) as (t & Ht & Hle).
      rewrite Hid, Ht in Ho. apply toString_inj in Ho. lia.
    + apply Forall_firstn'. constructor; [|exact Hall'].
      exists (clock w + Z.of_N dt)%Z. split; [exact Hid | lia].
  - split; [now apply NoDup_map_filter | now apply Forall_filter'].
  - split; constructor.
Qed.

Lemma newestFirst_step (w : World) (e : N * Event) :
  newestFirst w -> newestFirst (step w e).
Proof.
  destruct e as [dt ev]. intros [Hs Hall].
  pose proof (step_clock w (dt, ev)) as Hc.
  assert (Hall' : Forall (fun item => (HistoryItem.timestamp item
                                       <= clock (step w (dt, ev)))%Z)
                    (history (state w))).
  { eapply Forall_impl; [|exact Hall]. cbn beta. intros a Ha. lia. }
  unfold newestFirst.
  destruct (step_history_shape w dt ev)
    as [-> | [(item & _ & -> & Hid & Hts & Hclock) | [(id & ->) | ->]]].
  - split; assumption.
  - unfold slice0. split.
    + apply StronglySorted_firstn. constructor; [exact Hs|].
      eapply Forall_impl; [|exact Hall']. cbn beta.
      intros a Ha. rewrite Hclock. exact Ha.
    + apply Forall_firstn'. constructor; [|exact Hall'].
      rewrite Hclock. apply Z.le_refl.
  - split; [now apply StronglySorted_filter | now apply Forall_filter'].
  - split; constructor.
Qed.

(** X15. On a browser with nothing stored, the ids of the history are
    pairwise different in every state the application reaches, as long
    as each generation settles at least a millisecond after the event
    before it: each id is the decimal text of the clock at its creation,
    and different times have different texts. *)
Theorem history_ids_unique (now : Z) (events : list (N * Event)) :
  settlesLater events = true ->
  NoDup (map HistoryItem.id (history (state (run (mount Absent now) events)))).
Proof.
  intros H.
  apply (run_invariant_when
           (fun e => negb (isSettle (snd e)) || (0 <? fst e)%N) idsFresh).
  - intros w e. apply idsFresh_step.
  - exact H.
  - split; constructor.
Qed.

(** X16. On a browser with nothing stored, the history is kept newest first:
    in every state the application reaches, timestamps never increase
    along the list and none lies after the clock. *)
Theorem history_newest_first (now : Z) (events : list (N * Event)) :
  let w := run (mount Absent now) events in
  StronglySorted
    (fun a b => (HistoryItem.timestamp b <= HistoryItem.timestamp a)%Z)
    (history (state w)) /\
  Forall (fun item => (HistoryItem.timestamp item <= clock w)%Z) (history (state w)).
Proof.
  cbn zeta. apply (run_invariant newestFirst).
  - intros w e. apply newestFirst_step.
  - split; constructor.
Qed.

(** ** Cards of the history *)

Lemma step_card_click (w : World) (dt : N) (n : nat) (item : HistoryItem.t) :
  nth_error (history (state w)) n = Some item ->
  state (step w (dt, ClickHistoryItem n)) = handleSelectHistoryItem item (state w).
Proof.
  intros H. unfold step. cbn [handle advance state]. rewrite H. cbn.
  rewrite Bool.eqb_reflx. reflexivity.
Qed.

(** X17. A click on the newest card right after a generation has succeeded
    brings back that generation: the photograph and the style it was
    called with and the avatar it returned, with no error, and the
    history as the success left it. *)
Theorem select_newest_restores_generation (w : World) (n : nat)
    (call : GenerateCall) (result : string) (dt dt' lag : N) :
  nth_error (inFlight w) n = Some call ->
  let w1 := step w (dt, Settle n (Fulfilled result) lag) in
  let w2 := step w1 (dt', ClickHistoryItem 0) in
  nth_error (history (state w1)) 0
  = Some (newHistoryItem call result (clock w + Z.of_N dt)
            (clock w + Z.of_N dt + Z.of_N lag)) /\
  originalImage (state w2) = Some (call_image call) /\
  generatedAvatar (state w2) = Some result /\
  style (state w2) = call_style call /\
  error (state w2) = None /\
  history (state w2) = history (state w1) /\
  isGenerating (state w2) = false.
Proof.
  intros Hn. cbn zeta.
  assert (E1 : history (state (step w (dt, Settle n (Fulfilled result) lag)))
               = newHistoryItem call result (clock w + Z.of_N dt)
                   (clock w + Z.of_N dt + Z.of_N lag)
                 :: firstn 19 (history (state w))).
  { unfold step. rewrite effects_history. cbn [handle advance inFlight].
    rewrite Hn. reflexivity. }
  assert (G1 : isGenerating (state (step w (dt, Settle n (Fulfilled result) lag)))
               = false).
  { unfold step. rewrite effects_isGenerating, handle_isGenerating.
    cbn [advance inFlight]. now rewrite Hn. }
  split; [now rewrite E1|].
  assert (N0 : nth_error
                 (history (state (step w (dt, Settle n (Fulfilled result) lag)))) 0
               = Some (newHistoryItem call result (clock w + Z.of_N dt)
                         (clock w + Z.of_N dt + Z.of_N lag)))
    by now rewrite E1.
  rewrite (step_card_click _ dt' 0 _ N0).
  cbn [handleSelectHistoryItem originalImage generatedAvatar style error
       history isGenerating newHistoryItem HistoryItem.originalImage
       HistoryItem.generatedAvatar HistoryItem.style].
  repeat split. exact G1.
Qed.

(** X18. Deleting by id is a filter: doing it twice is doing it once, two
    deletions can be done in either order, nothing with the id is left and
    nothing else is lost. *)
Theorem deleteHistoryItem_algebra (id id' : string) (h : list HistoryItem.t) :
  deleteHistoryItem id (deleteHistoryItem id h) = deleteHistoryItem id h /\
  deleteHistoryItem id (deleteHistoryItem id' h)
  = deleteHistoryItem id' (deleteHistoryItem id h) /\
  (forall item, In item (deleteHistoryItem id h) <->
                In item h /\ HistoryItem.id item <> id) /\
  (forall a b, deleteHistoryItem id (a ++ b)
               = deleteHistoryItem id a ++ deleteHistoryItem id b).
Proof.
  split; [|split; [|split]].
  - apply deleteHistoryItem_no_match. intros item Hin.
    now apply deleteHistoryItem_In in Hin.
  - unfold deleteHistoryItem. induction h as [|x h IH]; cbn; [reflexivity|].
    destruct (negb (HistoryItem.id x =? id')%string) eqn:A,
             (negb (HistoryItem.id x =? id)%string) eqn:B;
      cbn; rewrite ?A, ?B; cbn; now rewrite ?IH.
  - intros item. apply deleteHistoryItem_In.
  - apply deleteHistoryItem_app.
Qed.

Lemma without_split {A : Type} (n : nat) (xs : list A) (x : A) :
  nth_error xs n = Some x ->
  xs = firstn n xs ++ x :: skipn (S n) xs /\
  without n xs = firstn n xs ++ skipn (S n) xs.
Proof.
  revert n. induction xs as [|a xs IH]; intros [|n] H; cbn in *; try discriminate.
  - injection H as ->. split; reflexivity.
  - destruct (IH n H) as [E1 E2]. split; [now rewrite <- E1 | now rewrite E2].
Qed.

(** X19. While the ids of the history are unique, the delete button of the
    [n]-th card removes that card and no other: the history afterwards is
    the history without its [n]-th entry, and nothing else in the state
    changes. *)
Theorem delete_button_removes_its_card (w : World) (n : nat)
    (item : HistoryItem.t) (dt : N) :
  NoDup (map HistoryItem.id (history (state w))) ->
  nth_error (history (state w)) n = Some item ->
  let w' := step w (dt, ClickDelete n) in
  history (state w') = without n (history (state w)) /\
  List.length (history (state w')) = Nat.pred (List.length (history (state w))) /\
  state w' = with_history (without n (history (state w))) (state w) /\
  localStorage w' = without n (history (state w)).
Proof.
  intros Hnd Hn. cbn zeta.
  destruct (without_split n _ item Hn) as [E1 E2].
  assert (D : deleteHistoryItem (HistoryItem.id item) (history (state w))
              = without n (history (state w))).
  { rewrite E2. rewrite E1 at 1. rewrite E1 in Hnd.
    rewrite map_app in Hnd. cbn [map] in Hnd. apply NoDup_remove_2 in Hnd.
    rewrite deleteHistoryItem_app. unfold deleteHistoryItem at 2.
    cbn [filter]. rewrite String.eqb_refl. cbn [negb].
    fold (deleteHistoryItem (HistoryItem.id item)
            (skipn (S n) (history (state w)))).
    rewrite !deleteHistoryItem_no_match; [reflexivity| |];
      intros x Hin Hx; apply Hnd; apply in_or_app;
      [right | left]; rewrite <- Hx; now apply in_map. }
  assert (S : state (step w (dt, ClickDelete n))
              = with_history (without n (history (state w))) (state w)).
  { unfold step. cbn [handle advance state]. rewrite Hn. cbn.
    rewrite Bool.eqb_reflx. cbn. unfold handleDeleteHistoryItem. now rewrite D. }
  split; [now rewrite S|]. split.
  - rewrite S. cbn [with_history history]. eapply without_length; eauto.
  - split; [exact S|]. unfold step. cbn [effects localStorage].
    rewrite <- D. cbn [handle advance state]. rewrite Hn. reflexivity.
Qed.

(** ** Starting a generation *)

(** X20. A click on the enabled generate button starts one call, with the
    photograph and the style of the state, raises [isGenerating], clears
    the error and the earlier avatar, and starts the interval at the
    time of the click; photograph, style, history and progress stay. *)
Theorem dispatch_starts_generation (w : World) (dt : N) :
  generateDisabled (state w) = false ->
  exists image,
    originalImage (state w) = Some image /\ image <> "" /\
    let w' := step w (dt, ClickGenerate) in
    inFlight w' = inFlight w ++ [ {| call_image := image; call_style := style (state w) |} ] /\
    state w' = beginGenerating (state w) /\
    isGenerating (state w') = true /\
    error (state w') = None /\
    generatedAvatar (state w') = None /\
    interval w' = Some (clock w + Z.of_N dt)%Z /\
    generateDisabled (state w') = true.
Proof.
  intros D. unfold generateDisabled in D. apply orb_false_elim in D as [T G].
  apply negb_false_iff in T.
  destruct (originalImage (state w)) as [image|] eqn:O; [|discriminate].
  exists image. split; [reflexivity|]. split; [now apply truthy_Some|].
  cbn zeta. unfold step, handle, clickGenerate, generateDisabled, handleGenerate.
  cbn [advance state]. rewrite O, T, G. cbn. rewrite G. cbn.
  repeat split. apply orb_true_r.
Qed.

(** ** The style of a pending call *)

Lemma Forall_without {A : Type} (P : A -> Prop) (n : nat) (xs : list A) :
  Forall P xs -> Forall P (without n xs).
Proof.
  intros H. revert n. induction H as [|x xs Hx Hxs IH]; intros [|n]; cbn; auto.
Qed.

Lemma styleKept_step (w : World) (e : N * Event) :
  isCardClick (snd e) = false -> styleKept w -> styleKept (step w e).
Proof.
  destruct e as [dt ev]. cbn [snd]. intros Hev [T H].
  split; [now apply tracking_step|].
  unfold step.
  assert (E : forall b x, style (state (effects b x)) = style (state x)).
  { intros b x. cbn. destruct (_ && _); reflexivity. }
  rewrite E. change (inFlight (effects ?b ?x)) with (inFlight x).
  unfold tracking in T.
  set (w1 := advance dt w).
  change (state w) with (state w1) in *. change (inFlight w) with (inFlight w1) in *.
  clearbody w1. revert T H.
  by_event ev w1; cbn; intros T H; auto; try discriminate.
  - destruct (inFlight w1); [constructor | discriminate].
  - destruct (inFlight w1); [constructor | discriminate].
  - apply Forall_app. split; [exact H|].
    apply clickGenerate_Some in E0 as [_ E0].
    apply handleGenerate_Some in E0 as (_ & _ & _ & E0).
    constructor; [exact E0 | constructor].
  - now apply Forall_without.
  - now apply Forall_without.
Qed.

(** X21. The style buttons are disabled while a generation runs, so as long as
    no card of the history is clicked, the style a pending call was made
    with is the style the page shows; the item recorded on success carries
    that style. *)
Theorem pending_call_style (saved : SavedHistory) (now : Z)
    (events : list (N * Event)) :
  noCardClick events = true ->
  let w := run (mount saved now) events in
  forall n call,
    nth_error (inFlight w) n = Some call ->
    call_style call = style (state w) /\
    forall result dt lag item,
      nth_error (history (state (step w (dt, Settle n (Fulfilled result) lag)))) 0
      = Some item ->
      HistoryItem.style item = style (state w).
Proof.
  intros Hev. cbn zeta.
  assert (K : styleKept (run (mount saved now) events)).
  { apply (run_invariant_when (fun e => negb (isCardClick (snd e))) styleKept).
    - intros w e He. apply styleKept_step. now apply negb_true_iff.
    - exact Hev.
    - split; [apply tracking_mount | constructor]. }
  destruct K as [_ K]. intros n call Hn.
  assert (S : call_style call = style (state (run (mount saved now) events))).
  { rewrite Forall_forall in K. apply K. eapply nth_error_In; eauto. }
  split; [exact S|].
  intros result dt lag item. unfold step. rewrite effects_history.
  cbn [handle advance inFlight]. rewrite Hn. cbn.
  intros H. injection H as <-. exact S.
Qed.

(** ** The further properties on the sample inputs *)

Lemma generateAvatar_rejection_has_message_witness :
  exists m,
    error (generateFailed
             (Error "The model did not return an image part in the response.")
             sample_ready) = Some m /\ m <> "".
Proof.
  destruct (generateAvatar_rejection_has_message (fun _ => "prompt") "system"
              " suffix" (fun _ => Fulfilled sample_text_first) (Some "key")
              "data:image/jpeg;base64,/9j/4AAQ" ANIME
              (Error "The model did not return an image part in the response.")
              sample_ready eq_refl)
    as (m & _ & Hne & Hm & _).
  exists m. split; [exact Hm | exact Hne].
Defined.

Lemma generateAvatar_without_api_key_witness :
  GeminiService.generateAvatar (fun _ => "prompt") "system" " suffix"
    (fun _ => Fulfilled sample_response) (Some "")
    "data:image/jpeg;base64,/9j/4AAQ" ANIME
  = Rejected (Error "API Key is missing. Please ensure process.env.API_KEY is configured.").
Proof.
  exact (proj1 (generateAvatar_without_api_key (fun _ => "prompt") "system"
                  " suffix" (fun _ => Fulfilled sample_response) (Some "")
                  "data:image/jpeg;base64,/9j/4AAQ" ANIME
                  {| call_image := "data:image/jpeg;base64,/9j/4AAQ";
                     call_style := ANIME |}
                  sample_start sample_start sample_ready
                  (or_intror eq_refl))).
Defined.

Lemma generateAvatar_takes_first_image_part_witness :
  GeminiService.generateAvatar (fun _ => "prompt") "system" " suffix"
    (fun _ => Fulfilled sample_response) (Some "key")
    "data:image/jpeg;base64,/9j/4AAQ" ANIME
  = Fulfilled "data:image/png;base64,iVBORw0KGgo=".
Proof.
  apply (generateAvatar_takes_first_image_part (fun _ => "prompt") "system"
           " suffix" (fun _ => Fulfilled sample_response) "key"
           "data:image/jpeg;base64,/9j/4AAQ" ANIME
           {| GeminiService.content :=
                Some {| GeminiService.parts :=
                          Some [ {| GeminiService.inlineData := None;
                                    GeminiService.text := Some "Here it is" |};
                                 {| GeminiService.inlineData :=
                                      Some {| GeminiService.data := Some "iVBORw0KGgo=";
                                              GeminiService.mimeType := Some "image/jpeg" |};
                                    GeminiService.text := None |} ] |} |}
           []
           [ {| GeminiService.inlineData := None;
                GeminiService.text := Some "Here it is" |} ]
           []
           {| GeminiService.inlineData :=
                Some {| GeminiService.data := Some "iVBORw0KGgo=";
                        GeminiService.mimeType := Some "image/jpeg" |};
              GeminiService.text := None |}
           {| GeminiService.data := Some "iVBORw0KGgo=";
              GeminiService.mimeType := Some "image/jpeg" |}).
  - discriminate.
  - reflexivity.
  - reflexivity.
  - repeat constructor.
  - reflexivity.
Defined.

Lemma generateAvatar_needs_image_in_first_candidate_witness :
  GeminiService.generateAvatar (fun _ => "prompt") "system" " suffix"
    (fun _ => Fulfilled sample_text_first) (Some "key")
    "data:image/jpeg;base64,/9j/4AAQ" ANIME
  = Rejected (Error "The model did not return an image part in the response.").
Proof.
  apply (generateAvatar_needs_image_in_first_candidate (fun _ => "prompt")
           "system" " suffix" (fun _ => Fulfilled sample_text_first) "key"
           "data:image/jpeg;base64,/9j/4AAQ" ANIME sample_text_first).
  - discriminate.
  - reflexivity.
  - cbn. repeat constructor.
Defined.

Lemma request_for_data_url_witness :
  GeminiService.request_data
    (GeminiService.request_for (fun _ => "prompt") "system" " suffix"
       "data:image/jpeg;base64,/9j/4AAQ" CLAY) = Some "/9j/4AAQ" /\
  GeminiService.request_mimeType
    (GeminiService.request_for (fun _ => "prompt") "system" " suffix"
       "data:image/jpeg;base64,/9j/4AAQ" CLAY) = Some "image/jpeg".
Proof.
  assert (H : forall c : ascii,
             (c = "," \/ c = ";" \/ c = ":")%char ->
             ~ In c (list_ascii_of_string "image/jpeg")).
  { intros c Hc Hin. cbn in Hin.
    repeat (destruct Hin as [Hin|Hin];
            [subst c; destruct Hc as [Hc|[Hc|Hc]]; discriminate Hc|]).
    exact Hin. }
  assert (Hp : ~ In ","%char (list_ascii_of_string "/9j/4AAQ")).
  { cbn. intros Hin.
    repeat (destruct Hin as [Hin|Hin]; [discriminate Hin|]). exact Hin. }
  pose proof (request_for_data_url (fun _ => "prompt") "system" " suffix"
                "image/jpeg" "/9j/4AAQ" CLAY
                (H _ (or_introl eq_refl))
                (H _ (or_intror (or_introl eq_refl)))
                (H _ (or_intror (or_intror eq_refl))) Hp) as R.
  cbn zeta in R. destruct R as (R1 & R2 & _). split; [exact R1 | exact R2].
Defined.

Lemma history_within_cap_across_reloads_witness :
  (List.length
     (history (state (run (mount (reopen (Parsed (sample_history 20))
                                    [(sample_start, sample_append)])
                             (sample_start + 86400000))
                        sample_append)))
   <= 20)%nat.
Proof.
  assert (H : (savedLength (Parsed (sample_history 20)) <= 20)%nat).
  { apply Nat.eq_le_incl. reflexivity. }
  exact (proj2 (history_within_cap_across_reloads (Parsed (sample_history 20))
                  [(sample_start, sample_append)] (sample_start + 86400000)
                  sample_append H)).
Defined.

Lemma idle_tick_ignored_witness :
  state (step sample_loaded (100%N, Tick)) = state sample_loaded.
Proof.
  exact (proj2 (idle_tick_ignored Absent sample_start
                  [ (0%N, ChooseFile (Some sample_photo)); (40%N, LoadEnd 0%nat) ]
                  100%N eq_refl)).
Defined.

Lemma avatar_cleared_while_generating_witness :
  generatedAvatar (state sample_generating) = None.
Proof.
  exact (proj1 (avatar_cleared_while_generating Absent sample_start
                  sample_events eq_refl eq_refl)).
Defined.

Lemma image_upload_witness :
  originalImage
    (state (step (step (mount Absent sample_start)
                    (0%N, ChooseFile (Some sample_photo)))
              (40%N, LoadEnd 0)))
  = Some "data:image/jpeg;base64,/9j/4AAQ".
Proof.
  pose proof (image_upload (mount Absent sample_start) sample_photo 0%N 40%N
                eq_refl) as H.
  cbn zeta in H. destruct H as (_ & _ & H & _). exact H.
Defined.

Lemma history_ids_unique_witness :
  NoDup (map HistoryItem.id
           (history (state (run (mount Absent sample_start)
                              sample_two_generations)))) /\
  List.length (history (state (run (mount Absent sample_start)
                                 sample_two_generations))) = 2%nat.
Proof.
  split; [|reflexivity].
  exact (history_ids_unique sample_start sample_two_generations eq_refl).
Defined.

Lemma select_newest_restores_generation_witness :
  generatedAvatar
    (state (step (step sample_generating
                    (9000%N, Settle 0 (Fulfilled "data:image/png;base64,AAAA") 1%N))
              (500%N, ClickHistoryItem 0)))
  = Some "data:image/png;base64,AAAA".
Proof.
  pose proof (select_newest_restores_generation sample_generating 0
                {| call_image := "data:image/jpeg;base64,/9j/4AAQ";
                   call_style := PIXAR |}
                "data:image/png;base64,AAAA" 9000%N 500%N 1%N eq_refl) as H.
  cbn zeta in H. destruct H as (_ & _ & H & _). exact H.
Defined.

Lemma delete_button_removes_its_card_witness :
  map HistoryItem.timestamp
    (history (state (step (mount (Parsed (sample_history 3)) sample_start)
                       (10%N, ClickDelete 1))))
  = [(sample_start - 1)%Z; (sample_start - 3)%Z].
Proof.
  assert (Hnd : NoDup (map HistoryItem.id
                         (history (state (mount (Parsed (sample_history 3))
                                            sample_start))))).
  { vm_compute. repeat constructor; cbn; intuition discriminate. }
  pose proof (delete_button_removes_its_card
                (mount (Parsed (sample_history 3)) sample_start) 1
                (sample_item (sample_start - 2)) 10%N Hnd eq_refl) as H.
  cbn zeta in H. destruct H as (H & _). rewrite H. reflexivity.
Defined.

Lemma dispatch_starts_generation_witness :
  exists image,
    originalImage (state sample_loaded) = Some image /\
    isGenerating (state (step sample_loaded (900%N, ClickGenerate))) = true.
Proof.
  destruct (dispatch_starts_generation sample_loaded 900%N eq_refl)
    as (image & Ho & _ & H).
  cbn zeta in H. destruct H as (_ & _ & G & _).
  exists image. split; [exact Ho | exact G].
Defined.

Lemma pending_call_style_witness :
  call_style {| call_image := "data:image/jpeg;base64,/9j/4AAQ";
                call_style := PIXAR |}
  = style (state sample_generating).
Proof.
  exact (proj1 (pending_call_style Absent sample_start sample_events eq_refl 0
                  {| call_image := "data:image/jpeg;base64,/9j/4AAQ";
                     call_style := PIXAR |} eq_refl)).
Defined.
